(** * File Scavenger: a shallow embedding of the scan engine

    The extension source (TypeScript) is embedded function by function:
    [readConfigFile], [getAllFiles], [findUnusedFiles], the body of the
    [extension.highlightUnusedFiles] command, the toggle / reset commands,
    the deletion watcher and [UnusedFileProvider.getChildren].

    Strings are [string]; the override store ([vscode.Memento]) and the
    configuration object are [gmap string _]; the file system is a finite
    tree of directory entries. *)

From Stdlib Require Import String Ascii List Arith Lia Bool.
From stdpp Require Import base option list strings pretty gmap fin_maps.

Open Scope string_scope.
Open Scope list_scope.

(** ** JavaScript and Node primitives used by the source *)

Module Js.

(** [String.prototype.includes]: [needle] occurs somewhere in [content]. *)
Fixpoint includes (needle content : string) : bool :=
  if String.prefix needle content then true
  else match content with
       | EmptyString => false
       | String _ rest => includes needle rest
       end.

(** [String.prototype.split] on a one-character separator. *)
Fixpoint split (sep : ascii) (s : string) : list string :=
  match s with
  | EmptyString => [EmptyString]
  | String c rest =>
      if Ascii.eqb c sep then EmptyString :: split sep rest
      else match split sep rest with
           | h :: t => String c h :: t
           | [] => [String c EmptyString]
           end
  end.

(** [Array.prototype.join]. *)
Definition join (sep : string) (parts : list string) : string :=
  String.concat sep parts.

(** [Array.prototype.slice(0, -1)]: everything but the last element. *)
Definition slice_0_m1 {A} (l : list A) : list A := removelast l.

(** [Array.prototype.slice(i, j)] for [0 <= i <= j]. *)
Definition slice {A} (l : list A) (i j : nat) : list A :=
  firstn (j - i) (skipn i l).

(** [Array.prototype.includes] on strings. *)
Definition arr_includes (l : list string) (x : string) : bool :=
  existsb (String.eqb x) l.

Definition lower_ascii (c : ascii) : ascii :=
  let n := nat_of_ascii c in
  if Nat.leb 65 n && Nat.leb n 90 then ascii_of_nat (n + 32) else c.

(** [String.prototype.toLowerCase] on strings of ASCII characters: the
    letters A to Z are lowered and every other byte is kept.  Strings are
    byte sequences here; the case mapping that JavaScript applies to
    characters outside ASCII is not modelled, so the two agree on the
    strings whose bytes are all below 128. *)
Fixpoint toLowerCase (s : string) : string :=
  match s with
  | EmptyString => EmptyString
  | String c rest => String (lower_ascii c) (toLowerCase rest)
  end.

End Js.

(** Node's [path] module, POSIX flavour. *)
Module Path.

(** [path.join(dir, name)] for a normalised directory path [dir] (no
    trailing separator) and a directory-entry name [name]. *)
Definition join (dir name : string) : string := dir +:+ "/" +:+ name.

Definition last_nonempty (parts : list string) : string :=
  fold_left (fun acc p => if String.eqb p "" then acc else p) parts "".

(** [path.basename(p)]: the last non-empty segment of [p]. *)
Definition basename (p : string) : string :=
  last_nonempty (Js.split "/" p).

(** [path.extname(p)]: from the last dot of the basename to its end; empty
    when there is no dot, when the only dot is the first character, and
    for the name [..]. *)
Definition extname (p : string) : string :=
  let b := basename p in
  let parts := Js.split "." b in
  if String.eqb b ".." then ""
  else match parts with
       | [] | [_] => ""
       | _ =>
           if String.eqb (Js.join "." (removelast parts)) "" then ""
           else "." +:+ List.last parts ""
       end.

End Path.

(** ** The file system seen by one scan *)

(** A directory entry as returned by [readdir(..., {withFileTypes: true})]:
    a non-directory with its content ([None]: [readFile] rejects), a
    directory with its entries in listing order, or a directory whose
    listing fails. *)
#[warnings="-register-all"]
Inductive entry : Type :=
| File (name : string) (content : option string)
| Dir (name : string) (items : list entry)
| DirNoAccess (name : string).

Definition entry_name (e : entry) : string :=
  match e with
  | File n _ | Dir n _ | DirNoAccess n => n
  end.

Definition isDirectory (e : entry) : bool :=
  match e with
  | File _ _ => false
  | Dir _ _ | DirNoAccess _ => true
  end.

(** Every file of the tree with its full path and content, ignoring no
    entry: the ground truth that [readFile] consults. *)
Fixpoint fs_files (dirPath : string) (e : entry) : list (string * option string) :=
  match e with
  | File n c => [(Path.join dirPath n, c)]
  | Dir n items => flat_map (fs_files (Path.join dirPath n)) items
  | DirNoAccess _ => []
  end.

Definition fs_listing (root : string) (items : list entry)
  : list (string * option string) :=
  flat_map (fs_files root) items.

(** [readFile(p, 'utf-8')]: [Some content], or [None] when the promise
    rejects (no such file, unreadable file). *)
Definition readFile (root : string) (items : list entry) (p : string)
  : option string :=
  match List.find (fun pc => String.eqb (fst pc) p) (fs_listing root items) with
  | Some (_, c) => c
  | None => None
  end.

(** ** Tree walker *)

(** One iteration of the [for (const item of items)] loop of [getAllFiles];
    the recursive call on a sub-directory lists that directory and runs
    the loop on its entries, and a failing listing leaves [files] empty. *)
Fixpoint getAllFiles_item (dirPath : string) (ignoreFolders ignoreRootFiles : list string)
    (item : entry) : list string :=
  let fullPath := Path.join dirPath (entry_name item) in
  if isDirectory item && Js.arr_includes ignoreFolders (entry_name item) then []
  else if negb (isDirectory item) && Js.arr_includes ignoreRootFiles (entry_name item)
  then []
  else match item with
       | File _ _ => [fullPath]
       | Dir _ items =>
           flat_map (getAllFiles_item fullPath ignoreFolders ignoreRootFiles) items
       | DirNoAccess _ => []
       end.

(** [getAllFiles(dirPath, ignoreFolders, ignoreRootFiles)] where [listing]
    is what [readdir(dirPath)] gives ([None]: it throws). *)
Definition getAllFiles (dirPath : string) (ignoreFolders ignoreRootFiles : list string)
    (listing : option (list entry)) : list string :=
  match listing with
  | Some items =>
      flat_map (getAllFiles_item dirPath ignoreFolders ignoreRootFiles) items
  | None => []
  end.

(** ** Override store and cancellation token *)

(** [vscode.Memento] holding the user overrides: [get(key, false)] and
    [update(key, value)], where [update(key, undefined)] removes the key. *)
Module Memento.

Definition get (m : gmap string bool) (key : string) : bool :=
  default false (m !! key).

Definition update (m : gmap string bool) (key : string) (value : option bool)
  : gmap string bool :=
  match value with
  | Some b => <[key := b]> m
  | None => delete key m
  end.

End Memento.

(** A [vscode.CancellationToken] as the scan observes it: the value of
    [isCancellationRequested] at the k-th time the scan reads it.  The
    scan threads the number of reads made so far (its clock). *)
Definition CancellationToken : Type := nat -> bool.

Definition isCancellationRequested (token : option CancellationToken)
    (clock : nat) : bool :=
  match token with
  | Some t => t clock
  | None => false
  end.

(** The token of a request made just before the [n]-th read. *)
Definition cancelledFrom (n : nat) : CancellationToken := fun k => Nat.leb n k.

Definition neverCancelled : CancellationToken := fun _ => false.

(** ** Reference heuristic engine *)

Section Engine.

(** [readFile(path, 'utf-8')] on the file system of the scan. *)
Variable readFile : string -> option string.

(** [fileName.split('.').slice(0, -1).join('.')]. *)
Definition withoutExtension (fileName : string) : string :=
  Js.join "." (Js.slice_0_m1 (Js.split "." fileName)).

(** The inner [for (const otherFile of trackedFiles)] loop: the final
    value of [isUsed]. *)
Fixpoint isUsed_loop (file fileName fileNameWithoutExtension : string)
    (others : list string) : bool :=
  match others with
  | [] => false
  | otherFile :: rest =>
      if String.eqb otherFile file
      then isUsed_loop file fileName fileNameWithoutExtension rest
      else match readFile otherFile with
           | Some content =>
               if Js.includes fileName content then true
               else if Js.includes fileNameWithoutExtension content then true
               else isUsed_loop file fileName fileNameWithoutExtension rest
           | None => isUsed_loop file fileName fileNameWithoutExtension rest
           end
  end.

Definition isUsed (trackedFiles : list string) (file : string) : bool :=
  let fileName := Path.basename file in
  isUsed_loop file fileName (withoutExtension fileName) trackedFiles.

(** The outer [for (const file of trackedFiles)] loop, on the files not
    yet visited; [unusedFiles] is the array being filled and [clock] the
    number of token reads made so far. *)
Fixpoint findUnused_loop (trackedFiles : list string)
    (userOverrides : gmap string bool) (token : option CancellationToken)
    (clock : nat) (unusedFiles : list string) (todo : list string)
  : list string * nat :=
  match todo with
  | [] => (unusedFiles, clock)
  | file :: rest =>
      if isCancellationRequested token clock then (unusedFiles, S clock)
      else if Memento.get userOverrides file
      then findUnused_loop trackedFiles userOverrides token (S clock)
             unusedFiles rest
      else if isUsed trackedFiles file
      then findUnused_loop trackedFiles userOverrides token (S clock)
             unusedFiles rest
      else findUnused_loop trackedFiles userOverrides token (S clock)
             (unusedFiles ++ [file]) rest
  end.

(** [findUnusedFiles(trackedFiles, workspacePath, userOverrides, token)];
    [workspacePath] and the local [fileMap] are never read by the source.
    Returns the unused files and the clock after the call. *)
Definition findUnusedFiles (trackedFiles : list string)
    (userOverrides : gmap string bool) (token : option CancellationToken)
    (clock : nat) : list string * nat :=
  findUnused_loop trackedFiles userOverrides token clock [] trackedFiles.

(** *** The scan command: batching *)

Definition batchSize : nat := 100.

(** The values taken by [i] in
    [for (let i = 0; i < totalFiles; i += batchSize)]. *)
Definition batch_starts (totalFiles : nat) : list nat :=
  map (fun j => j * batchSize) (seq 0 ((totalFiles + (batchSize - 1)) / batchSize)).

(** The batch loop of the command.  [None]: the token was found
    cancelled at the head of an iteration and the handler returned;
    [Some unusedFiles]: the loop ran to its end. *)
Fixpoint scan_loop (trackedFiles : list string)
    (userOverrides : gmap string bool) (token : CancellationToken)
    (clock : nat) (unusedFiles : list string) (starts : list nat)
  : option (list string) :=
  match starts with
  | [] => Some unusedFiles
  | i :: more =>
      if token clock then None
      else
        let batch := Js.slice trackedFiles i (i + batchSize) in
        let '(batchUnusedFiles, clock') :=
          findUnusedFiles batch userOverrides (Some token) (S clock) in
        scan_loop trackedFiles userOverrides token clock'
          (unusedFiles ++ batchUnusedFiles) more
  end.

End Engine.

(** The configuration record read by the command: the three fields of
    the object returned by [readConfigFile], as arrays of strings. *)
Record Config : Type := mkConfig {
  fileTypes : list string;
  ignoreFolders : list string;
  ignoreRootFiles : list string
}.

(** [allFiles.filter(file => config.fileTypes.includes(
      path.extname(file).toLowerCase()))]. *)
Definition trackedOf (config : Config) (allFiles : list string) : list string :=
  List.filter
    (fun file => Js.arr_includes (fileTypes config)
                   (Js.toLowerCase (Path.extname file)))
    allFiles.

(** The progress callback of the command up to its last statement: the
    list handed to [refresh] / [updateUnusedFiles], or [None] when the
    handler returned at a cancelled batch head.  [progress.report] only
    feeds the notification and is left out. *)
Definition scan (config : Config) (workspacePath : string)
    (listing : option (list entry)) (userOverrides : gmap string bool)
    (token : CancellationToken) : option (list string) :=
  let allFiles :=
    getAllFiles workspacePath (ignoreFolders config) (ignoreRootFiles config)
      listing in
  let trackedFiles := trackedOf config allFiles in
  let totalFiles := length trackedFiles in
  scan_loop (readFile workspacePath (default [] listing)) trackedFiles
    userOverrides token 0 [] (batch_starts totalFiles).

(** ** Providers, commands and the deletion watcher *)

Inductive message : Type :=
| NoWorkspaceFolder          (* 'No workspace folder is open.' *)
| ScanCanceledByUser         (* 'Scan canceled by user.' *)
| ScanComplete (found : nat) (* 'Scan complete. Found n unused files.' *)
| ProcessingError.           (* 'An error occurred while processing files.' *)

(** What [activate] sets up and the handlers share: the override store,
    [UnusedFileProvider.unusedFiles], the set kept by
    [UnusedFileDecorationProvider] and the notifications shown so far. *)
Record State : Type := mkState {
  userOverrides : gmap string bool;
  providerUnusedFiles : list string;
  decorationUnusedFiles : gset string;
  shown : list message
}.

(** [userOverrides.keys().forEach(key => userOverrides.update(key, undefined))]
    followed by the construction of the two providers. *)
Definition activate (stored : gmap string bool) : State :=
  mkState (foldr (fun key m => Memento.update m key None) stored
             (map fst (map_to_list stored)))
          [] ∅ [].

(** [refresh(unusedFiles)] then [updateUnusedFiles(unusedFiles)]. *)
Definition publish (unusedFiles : list string) (st : State) : State :=
  mkState (userOverrides st) unusedFiles (list_to_set unusedFiles) (shown st).

Definition notify (m : message) (st : State) : State :=
  mkState (userOverrides st) (providerUnusedFiles st)
    (decorationUnusedFiles st) (shown st ++ [m]).

(** The [extension.highlightUnusedFiles] command. [workspaceFolders] is
    the first workspace folder with the listing of its directory.  With
    a configuration whose fields are arrays of strings no call inside the
    [try] block throws (the walker and the engine catch their own
    failures), so the [catch] branch and its notification are not
    reached. *)
Definition highlightUnusedFiles
    (workspaceFolders : option (string * option (list entry)))
    (config : Config) (token : CancellationToken) (st : State) : State :=
  match workspaceFolders with
  | None => notify NoWorkspaceFolder st
  | Some (workspacePath, listing) =>
      match scan config workspacePath listing (userOverrides st) token with
      | None => notify ScanCanceledByUser st
      | Some unusedFiles =>
          notify (ScanComplete (length unusedFiles)) (publish unusedFiles st)
      end
  end.

(** The [extension.toggleFileStatus] command, with its delayed refresh. *)
Definition toggleFileStatus (filePath : string) (st : State) : State :=
  let isMarkedAsUsed := Memento.get (userOverrides st) filePath in
  publish (providerUnusedFiles st)
    (mkState (Memento.update (userOverrides st) filePath (Some (negb isMarkedAsUsed)))
       (providerUnusedFiles st) (decorationUnusedFiles st) (shown st)).

(** The [extension.resetFileState] command. *)
Definition resetFileState (filePath : string) (st : State) : State :=
  publish (providerUnusedFiles st)
    (mkState (Memento.update (userOverrides st) filePath None)
       (providerUnusedFiles st) (decorationUnusedFiles st) (shown st)).

(** The [fileWatcher.onDidDelete] handler. *)
Definition onDidDelete (deletedFilePath : string) (st : State) : State :=
  publish
    (List.filter (fun file => negb (String.eqb file deletedFilePath))
       (providerUnusedFiles st))
    st.

(** [UnusedFileProvider.getChildren]: the tree items, each a path with its
    [isMarkedAsUsed] flag. *)
Definition getChildren (st : State) : list (string * bool) :=
  let filteredUnusedFiles :=
    List.filter (fun file => negb (Memento.get (userOverrides st) file))
      (providerUnusedFiles st) in
  map (fun file => (file, Memento.get (userOverrides st) file))
    filteredUnusedFiles.

Inductive decoration : Type :=
| UsedBadge     (* badge '✓', tooltip 'Used File (Marked by ...)' *)
| UnusedBadge.  (* badge '✗', tooltip 'Unused File' *)

(** [UnusedFileDecorationProvider.provideFileDecoration]. *)
Definition provideFileDecoration (st : State) (fsPath : string)
  : option decoration :=
  if decide (fsPath ∈ decorationUnusedFiles st) then
    if Memento.get (userOverrides st) fsPath then Some UsedBadge
    else Some UnusedBadge
  else None.

(** One thing that happens in a session after activation. *)
Inductive command : Type :=
| HighlightUnusedFiles
    (workspaceFolders : option (string * option (list entry)))
    (config : Config) (token : CancellationToken)
| ToggleFileStatus (filePath : string)
| ResetFileState (filePath : string)
| DidDelete (deletedFilePath : string).

Definition step (st : State) (c : command) : State :=
  match c with
  | HighlightUnusedFiles w config token => highlightUnusedFiles w config token st
  | ToggleFileStatus p => toggleFileStatus p st
  | ResetFileState p => resetFileState p st
  | DidDelete p => onDidDelete p st
  end.

Definition run (st : State) (cs : list command) : State := fold_left step cs st.

(** ** Configuration resolver *)

(** A value produced by [JSON.parse]. *)
#[warnings="-register-all"]
Inductive json : Type :=
| JNull
| JBool (b : bool)
| JNumber (lexeme : string)
| JString (s : string)
| JArray (items : list json)
| JObject (members : list (string * json)).

(** A call that returns normally or throws (a rejected promise, when
    awaited, throws too). *)
Inductive completion (A : Type) : Type :=
| Normal (a : A)
| Throw.
Arguments Normal {A} a.
Arguments Throw {A}.

Definition bind {A B} (c : completion A) (k : A -> completion B) : completion B :=
  match c with
  | Normal a => k a
  | Throw => Throw
  end.

(** [try { body } catch { handler }]. *)
Definition try_catch {A} (body : completion A) (handler : completion A)
  : completion A :=
  match body with
  | Normal a => Normal a
  | Throw => handler
  end.

(** The state of [<workspace>/.filescavengerrc]. *)
Inductive configFile : Type :=
| Missing                    (* existsSync gives false *)
| Unreadable                 (* it exists and readFile rejects *)
| Content (text : string).

Definition existsSync (f : configFile) : bool :=
  match f with
  | Missing => false
  | Unreadable | Content _ => true
  end.

Definition readConfigText (f : configFile) : completion string :=
  match f with
  | Content text => Normal text
  | Missing | Unreadable => Throw
  end.

Definition chars (s : string) : list json :=
  map (fun c => JString (String c EmptyString)) (list_ascii_of_string s).

(** The properties with index keys ["0"], ["1"], ... of an array or of a
    string. *)
Definition indexed (items : list json) : gmap string json :=
  list_to_map (imap (fun i v => (pretty i, v)) items).

(** The own enumerable properties that an object spread [{...v}] copies;
    in an object literal read by [JSON.parse] a repeated key keeps its
    last value. *)
Definition ownProperties (v : json) : gmap string json :=
  match v with
  | JObject members =>
      fold_left (fun m kv => <[fst kv := snd kv]> m) members ∅
  | JArray items => indexed items
  | JString s => indexed (chars s)
  | JNull | JBool _ | JNumber _ => ∅
  end.

(** [{ ...a, ...b }]: the properties of [b] over those of [a]. *)
Definition spread (a b : gmap string json) : gmap string json := b ∪ a.

Definition strings (l : list string) : json := JArray (map JString l).

Definition defaultFileTypes : list string :=
  [".js"; ".ts"; ".jsx"; ".tsx"; ".css"; ".scss"; ".less"; ".html"; ".htm";
   ".json"; ".xml"; ".yml"; ".yaml"; ".png"; ".jpg"; ".jpeg"; ".svg"; ".gif";
   ".bmp"; ".ico"; ".webp"; ".mp4"; ".mp3"; ".wav"; ".ogg"; ".pdf"; ".md";
   ".txt"; ".csv"; ".sql"; ".sh"; ".bat"; ".ps1"; ".py"; ".rb"; ".php";
   ".java"; ".cpp"; ".c"; ".h"; ".go"; ".rs"; ".swift"; ".kt"; ".dart";
   ".lua"; ".pl"; ".r"; ".hs"; ".scala"; ".clj"; ".elm"; ".erl"; ".ex";
   ".fs"; ".groovy"; ".jl"; ".nim"; ".pde"; ".v"; ".vb"; ".vbs"; ".zig"].

Definition defaultIgnoreFolders : list string :=
  ["node_modules"; ".git"; "dist"; "build"; "out"; "bin"; "obj"; "vendor";
   "logs"; "temp"].

Definition defaultIgnoreRootFiles : list string :=
  ["README.md"; "package.json"; "package-lock.json"; "tsconfig.json";
   "webpack.config.js"; ".gitignore"; ".env"; ".env.local";
   "docker-compose.yml"; "Makefile"; "Procfile"].

Definition defaultConfig : gmap string json :=
  <["fileTypes" := strings defaultFileTypes]>
    (<["ignoreFolders" := strings defaultIgnoreFolders]>
       (<["ignoreRootFiles" := strings defaultIgnoreRootFiles]> ∅)).

Section Resolver.

(** [JSON.parse]: the parsed value, or [Throw] on a syntax error. *)
Variable JSON_parse : string -> completion json.

(** [readConfigFile(workspacePath)], given the state of the config file. *)
Definition readConfigFile (f : configFile) : completion (gmap string json) :=
  if negb (existsSync f) then Normal defaultConfig
  else
    try_catch
      (bind (readConfigText f) (fun text =>
       bind (JSON_parse text) (fun userConfig =>
       Normal (spread defaultConfig (ownProperties userConfig)))))
      (Normal defaultConfig).

End Resolver.

(** The three keys that the scan command reads from the configuration. *)
Definition configKeys : list string :=
  ["fileTypes"; "ignoreFolders"; "ignoreRootFiles"].

(** ** Specification-side notions *)

(** [needle] occurs verbatim in [content]. *)
Definition occurs_in (needle content : string) : Prop :=
  exists pre post, content = pre +:+ needle +:+ post.

(** What the engine reports for [file] once it has examined it against
    the list [trackedFiles] it was given. *)
Definition reportable (readFile : string -> option string)
    (userOverrides : gmap string bool) (trackedFiles : list string)
    (file : string) : bool :=
  negb (Memento.get userOverrides file) && negb (isUsed readFile trackedFiles file).

(** The files of [todo] that the outer loop examines: those reached
    before the token is first read as cancelled. *)
Fixpoint visited (token : option CancellationToken) (clock : nat)
    (todo : list string) : list string :=
  match todo with
  | [] => []
  | file :: rest =>
      if isCancellationRequested token clock then []
      else file :: visited token (S clock) rest
  end.

(** Every non-directory entry below [e], with the names of the
    directories that lead to it, outermost first. *)
Fixpoint entry_files (e : entry) : list (list string * string) :=
  match e with
  | File n _ => [([], n)]
  | Dir n items =>
      map (fun df => (n :: fst df, snd df)) (flat_map entry_files items)
  | DirNoAccess _ => []
  end.

Definition tree_files (items : list entry) : list (list string * string) :=
  flat_map entry_files items.

(** The path of the entry [name] found below [root] through the
    directories [dirs]. *)
Definition path_of (root : string) (dirs : list string) (name : string) : string :=
  fold_left Path.join (dirs ++ [name]) root.

Fixpoint no_slash (s : string) : bool :=
  match s with
  | EmptyString => true
  | String c rest => negb (Ascii.eqb c "/") && no_slash rest
  end.

(** Entry names are single path segments. *)
Fixpoint entry_wf (e : entry) : bool :=
  match e with
  | File n _ => no_slash n
  | Dir n items => no_slash n && forallb entry_wf items
  | DirNoAccess n => no_slash n
  end.

(** The value the user's object gives to [key]: that of its last member
    named [key]. *)
Fixpoint userValue (members : list (string * json)) (key : string)
  : option json :=
  match members with
  | [] => None
  | (k, v) :: rest =>
      match userValue rest key with
      | Some v' => Some v'
      | None => if String.eqb k key then Some v else None
      end
  end.

(** A command that changes the override of [p]. *)
Definition touches (p : string) (c : command) : Prop :=
  match c with
  | ToggleFileStatus q | ResetFileState q => q = p
  | HighlightUnusedFiles _ _ _ | DidDelete _ => False
  end.

(** The segments appended to the root: [/c1/c2/.../ck]. *)
Fixpoint segments (comps : list string) : string :=
  match comps with
  | [] => EmptyString
  | c :: rest => "/" +:+ c +:+ segments rest
  end.

Definition starts_with_slash_or_empty (s : string) : Prop :=
  s = EmptyString \/ exists r, s = String "/" r.

(** Structural induction on entries, with the hypothesis for every item
    of a directory. *)
Fixpoint entry_induction (P : entry -> Prop)
    (HFile : forall n c, P (File n c))
    (HDir : forall n items, Forall P items -> P (Dir n items))
    (HNoAccess : forall n, P (DirNoAccess n))
    (e : entry) : P e :=
  match e with
  | File n c => HFile n c
  | Dir n items =>
      HDir n items
        ((fix all (l : list entry) : Forall P l :=
            match l with
            | [] => @List.Forall_nil _ P
            | x :: rest =>
                @List.Forall_cons _ P x rest
                  (entry_induction P HFile HDir HNoAccess x) (all rest)
            end) items)
  | DirNoAccess n => HNoAccess n
  end.

(** [s] holds no dot. *)
Fixpoint no_dot (s : string) : bool :=
  match s with
  | EmptyString => true
  | String c rest => negb (Ascii.eqb c ".") && no_dot rest
  end.

Definition is_upper (c : ascii) : bool :=
  let n := nat_of_ascii c in Nat.leb 65 n && Nat.leb n 90.

(** [s] holds an ASCII capital letter. *)
Fixpoint has_upper (s : string) : bool :=
  match s with
  | EmptyString => false
  | String c rest => is_upper c || has_upper rest
  end.

Fixpoint nodupb (l : list string) : bool :=
  match l with
  | [] => true
  | x :: rest => negb (Js.arr_includes rest x) && nodupb rest
  end.

(** In every directory of the tree the entries bear distinct names. *)
Fixpoint names_unique (e : entry) : bool :=
  match e with
  | File _ _ | DirNoAccess _ => true
  | Dir _ items => nodupb (map entry_name items) && forallb names_unique items
  end.

(** The batches that the command cuts out of the tracked files. *)
Definition batches (trackedFiles : list string) : list (list string) :=
  map (fun i => Js.slice trackedFiles i (i + batchSize))
    (batch_starts (length trackedFiles)).

(** The value is [null], a boolean or a number. *)
Definition is_primitive (v : json) : bool :=
  match v with
  | JNull | JBool _ | JNumber _ => true
  | JString _ | JArray _ | JObject _ => false
  end.

(** Every byte of [s] is an ASCII character. *)
Fixpoint is_ascii_string (s : string) : bool :=
  match s with
  | EmptyString => true
  | String c rest => Nat.ltb (nat_of_ascii c) 128 && is_ascii_string rest
  end.

(** The configuration without the [fileTypes] entries that hold an ASCII
    capital letter. *)
Definition withoutCapitalised (config : Config) : Config :=
  mkConfig (List.filter (fun e => negb (has_upper e)) (fileTypes config))
    (ignoreFolders config) (ignoreRootFiles config).

(** The command is a reset of the override of [p]. *)
Definition resets (p : string) (c : command) : bool :=
  match c with
  | ResetFileState q => String.eqb q p
  | HighlightUnusedFiles _ _ _ | ToggleFileStatus _ | DidDelete _ => false
  end.

(** The state is one that a session reaches after activation. *)
Definition reachable (st : State) : Prop :=
  exists stored cs, st = run (activate stored) cs.

(** ** Example projects *)

Definition dquote : string := String (ascii_of_nat 34) EmptyString.

(** [a.ts] (empty), [b.ts] containing [import "./a"], [c.ts] (empty). *)
Definition abc_tree : list entry :=
  [File "a.ts" (Some EmptyString);
   File "b.ts" (Some ("import " +:+ dquote +:+ "./a" +:+ dquote));
   File "c.ts" (Some EmptyString)].

Definition tsOnly : Config := mkConfig [".ts"] [] [].

(** 101 tracked files: [a.ts], which names [zz.ts], then 99 empty files
    [f0.ts] ... [f98.ts], then [zz.ts]. *)
Definition wide_tree : list entry :=
  File "a.ts" (Some "import './zz.ts'")
  :: map (fun i => File ("f" +:+ pretty i +:+ ".ts") (Some EmptyString)) (seq 0 99)
  ++ [File "zz.ts" (Some EmptyString)].

(** A configuration file that replaces [fileTypes] only, and a parser
    that reads this one text. *)
Definition ts_config_text : string :=
  "{" +:+ dquote +:+ "fileTypes" +:+ dquote +:+ ": ["
      +:+ dquote +:+ ".ts" +:+ dquote +:+ "]}".

Definition ts_config_members : list (string * json) :=
  [("fileTypes", strings [".ts"])].

Definition ts_config_parse (text : string) : completion json :=
  if String.eqb text ts_config_text then Normal (JObject ts_config_members)
  else Throw.

(** A project with an ignored folder name at two depths and an ignored
    file name below the root. *)
Definition nested_tree : list entry :=
  [Dir "src"
     [File "y.ts" (Some EmptyString);
      File "README.md" (Some EmptyString);
      Dir "vendor" [File "x.ts" (Some EmptyString)]];
   Dir "vendor" [File "x.ts" (Some EmptyString)]].

(** A session on the three-file project: scan, mark [c.ts] as used, scan
    again after deleting another path. *)
Definition abc_project : option (string * option (list entry)) :=
  Some ("/root", Some abc_tree).

Definition abc_session : list command :=
  [HighlightUnusedFiles abc_project tsOnly neverCancelled;
   DidDelete "/root/b.ts";
   ToggleFileStatus "/root/a.ts"].

Definition c_marked_used : State :=
  step (step (activate ∅) (HighlightUnusedFiles abc_project tsOnly neverCancelled))
    (ToggleFileStatus "/root/c.ts").

(** * Properties *)

(** ** Strings *)

Lemma append_cons c s t : String c s +:+ t = String c (s +:+ t).
Proof. reflexivity. Qed.

Lemma append_nil t : EmptyString +:+ t = t.
Proof. reflexivity. Qed.

Lemma prefix_occurs needle content :
  String.prefix needle content = true <-> exists post, content = needle +:+ post.
Proof.
  revert content; induction needle as [|c needle IH]; intros content.
  - split; [intros _; exists content; reflexivity | destruct content; reflexivity].
  - destruct content as [|d content]; simpl.
    + split; [discriminate | intros [post H]; discriminate].
    + destruct (ascii_dec c d) as [->|Hne].
      * rewrite IH. split; intros [post H]; exists post;
          rewrite append_cons in *; congruence.
      * split; [discriminate | intros [post H]; rewrite append_cons in H; congruence].
Qed.

Lemma includes_unfold needle content :
  Js.includes needle content =
  if String.prefix needle content then true
  else match content with
       | EmptyString => false
       | String _ rest => Js.includes needle rest
       end.
Proof. destruct content; reflexivity. Qed.

Lemma includes_occurs needle content :
  Js.includes needle content = true <-> occurs_in needle content.
Proof.
  unfold occurs_in. induction content as [|d content IH];
    rewrite includes_unfold;
    match goal with |- context [String.prefix ?a ?b] =>
      destruct (String.prefix a b) eqn:E end.
  - split; [intros _ | reflexivity].
    apply prefix_occurs in E as [post E]. exists EmptyString, post. exact E.
  - split; [discriminate |].
    intros ([|? pre] & post & H);
      [rewrite append_nil in H | rewrite append_cons in H; discriminate].
    assert (String.prefix needle EmptyString = true) as E'
      by (apply prefix_occurs; eauto).
    congruence.
  - split; [intros _ | reflexivity].
    apply prefix_occurs in E as [post E]. exists EmptyString, post. exact E.
  - rewrite IH. split.
    + intros (pre & post & ->). exists (String d pre), post. reflexivity.
    + intros ([|e pre] & post & H);
        [rewrite append_nil in H | rewrite append_cons in H].
      * assert (String.prefix needle (String d content) = true) as E'
          by (apply prefix_occurs; eauto).
        congruence.
      * injection H as _ ->. eauto.
Qed.

(** ** The engine *)

Lemma visited_In token todo :
  forall clock f, In f (visited token clock todo) -> In f todo.
Proof.
  induction todo as [|file rest IH]; intros clock f; simpl; [tauto |].
  destruct (isCancellationRequested token clock); simpl; [tauto |].
  intros [->|H]; eauto.
Qed.

(** Nothing at or after the position where the token is read as
    cancelled is examined. *)
Lemma visited_firstn token todo :
  forall clock n f,
    isCancellationRequested token (clock + n) = true ->
    In f (visited token clock todo) -> In f (firstn n todo).
Proof.
  induction todo as [|file rest IH]; intros clock n f Hc; simpl; [tauto |].
  destruct n as [|n].
  - rewrite Nat.add_0_r in Hc. rewrite Hc. simpl. tauto.
  - destruct (isCancellationRequested token clock); simpl; [tauto |].
    intros [->|H]; [left; reflexivity | right].
    apply (IH (S clock) n); [|exact H].
    replace (S clock + n) with (clock + S n) by lia. exact Hc.
Qed.

Lemma visited_never token todo :
  (forall k, isCancellationRequested token k = false) ->
  forall clock, visited token clock todo = todo.
Proof.
  intros Hn. induction todo as [|file rest IH]; intros clock; simpl;
    [reflexivity |].
  rewrite Hn, IH. reflexivity.
Qed.

Section EngineFacts.

Variable rf : string -> option string.
Variable ov : gmap string bool.

(** The inner loop finds no match exactly when no other readable file
    of the list mentions the name or the stem. *)
Lemma isUsed_loop_false file fileName stem others :
  isUsed_loop rf file fileName stem others = false <->
  forall other content,
    In other others -> other <> file -> rf other = Some content ->
    Js.includes fileName content = false /\ Js.includes stem content = false.
Proof.
  induction others as [|o rest IH]; simpl.
  - split; [intros _ ? ? [] | reflexivity].
  - destruct (String.eqb_spec o file) as [->|Hne].
    + rewrite IH. split.
      * intros H other content [<-|Hin] Hn Hr; [congruence | eauto].
      * intros H other content Hin; apply H; auto.
    + destruct (rf o) as [c|] eqn:Hc.
      * destruct (Js.includes fileName c) eqn:E1.
        { split; [discriminate |]. intros H.
          destruct (H o c) as [H1 _]; auto. congruence. }
        destruct (Js.includes stem c) eqn:E2.
        { split; [discriminate |]. intros H.
          destruct (H o c) as [_ H2]; auto. congruence. }
        rewrite IH. split.
        -- intros H other content [<-|Hin] Hn Hr; [|eauto].
           assert (content = c) as -> by congruence. auto.
        -- intros H other content Hin; apply H; auto.
      * rewrite IH. split.
        -- intros H other content [<-|Hin] Hn Hr; [congruence | eauto].
        -- intros H other content Hin; apply H; auto.
Qed.

Lemma findUnused_loop_fst trackedFiles token todo :
  forall clock acc,
    fst (findUnused_loop rf trackedFiles ov token clock acc todo) =
    acc ++ List.filter (reportable rf ov trackedFiles) (visited token clock todo).
Proof.
  induction todo as [|file rest IH]; intros clock acc; simpl.
  - rewrite app_nil_r. reflexivity.
  - destruct (isCancellationRequested token clock); simpl.
    + rewrite app_nil_r. reflexivity.
    + unfold reportable at 1.
      destruct (Memento.get ov file); simpl; [apply IH |].
      destruct (isUsed rf trackedFiles file); simpl; [apply IH |].
      rewrite IH, <- app_assoc. reflexivity.
Qed.

Lemma findUnusedFiles_fst trackedFiles token clock :
  fst (findUnusedFiles rf trackedFiles ov token clock) =
  List.filter (reportable rf ov trackedFiles) (visited token clock trackedFiles).
Proof. unfold findUnusedFiles. apply findUnused_loop_fst. Qed.

(** The clock after the outer loop: one read per file, unless a read
    found the token cancelled. *)
Lemma findUnused_loop_snd trackedFiles token todo :
  forall clock acc,
    let clock' := snd (findUnused_loop rf trackedFiles ov token clock acc todo) in
    clock' = clock + length todo \/
    exists k, k < clock' /\ isCancellationRequested token k = true.
Proof.
  induction todo as [|file rest IH]; intros clock acc; simpl.
  - left. lia.
  - destruct (isCancellationRequested token clock) eqn:Hc; simpl.
    + right. exists clock. split; [lia | exact Hc].
    + assert (forall acc',
        snd (findUnused_loop rf trackedFiles ov token (S clock) acc' rest)
          = clock + S (length rest) \/
        exists k,
          k < snd (findUnused_loop rf trackedFiles ov token (S clock) acc' rest)
          /\ isCancellationRequested token k = true) as Hrec.
      { intros acc'. destruct (IH (S clock) acc') as [H|H]; [left; lia | right; exact H]. }
      destruct (Memento.get ov file); [apply Hrec |].
      destruct (isUsed rf trackedFiles file); apply Hrec.
Qed.

(** With a token that is never cancelled, the batch loop returns the
    concatenation of what the engine reports for each batch. *)
Lemma scan_loop_never trackedFiles (token : CancellationToken) starts :
  (forall k, token k = false) ->
  forall clock acc,
    scan_loop rf trackedFiles ov token clock acc starts =
    Some (acc ++ flat_map
            (fun i =>
               let batch := Js.slice trackedFiles i (i + batchSize) in
               List.filter (reportable rf ov batch) batch)
            starts).
Proof.
  intros Hn. induction starts as [|i more IH]; intros clock acc; simpl.
  - rewrite app_nil_r. reflexivity.
  - rewrite Hn.
    destruct (findUnusedFiles rf (Js.slice trackedFiles i (i + batchSize)) ov
                (Some token) (S clock)) as [bu clock'] eqn:E.
    rewrite IH, <- app_assoc. f_equal. f_equal. f_equal.
    change bu with (fst (bu, clock')). rewrite <- E.
    rewrite findUnusedFiles_fst, visited_never; [reflexivity |].
    intros k. simpl. apply Hn.
Qed.

End EngineFacts.

Section ScanFacts.

Variable rf : string -> option string.
Variable ov : gmap string bool.

(** Whatever the batch loop returns was reported by the engine for
    one of the batches, or was there before. *)
Lemma scan_loop_In trackedFiles (token : CancellationToken) starts :
  forall clock acc l f,
    scan_loop rf trackedFiles ov token clock acc starts = Some l ->
    In f l ->
    In f acc \/
    exists i clock',
      In i starts /\
      In f (fst (findUnusedFiles rf (Js.slice trackedFiles i (i + batchSize))
                   ov (Some token) clock')).
Proof.
  induction starts as [|i more IH]; intros clock acc l f; simpl.
  - intros [= ->]. auto.
  - destruct (token clock); [discriminate |].
    destruct (findUnusedFiles rf (Js.slice trackedFiles i (i + batchSize)) ov
                (Some token) (S clock)) as [bu clock'] eqn:E.
    intros Hs Hin. destruct (IH _ _ _ _ Hs Hin) as [H|(j & c & Hj & H)].
    + apply in_app_or in H as [H|H]; [auto |].
      right. exists i, (S clock). rewrite E. auto.
    + right. exists j, c. auto.
Qed.

Lemma overridden_not_reported trackedFiles token clock p :
  Memento.get ov p = true ->
  ~ In p (fst (findUnusedFiles rf trackedFiles ov token clock)).
Proof.
  intros Hp. rewrite findUnusedFiles_fst. intros H.
  apply filter_In in H as [_ H]. unfold reportable in H.
  rewrite Hp in H. discriminate.
Qed.

End ScanFacts.

Lemma batch_starts_eq totalFiles :
  batch_starts totalFiles =
  map (fun j => j * batchSize) (seq 0 ((totalFiles + 99) / 100)).
Proof. reflexivity. Qed.

(** The loop variable takes exactly the multiples of [batchSize] below
    [totalFiles]. *)
Lemma batch_starts_spec totalFiles i :
  In i (batch_starts totalFiles) <->
  exists j, i = j * batchSize /\ i < totalFiles.
Proof.
  rewrite batch_starts_eq, in_map_iff. unfold batchSize.
  set (m := (totalFiles + 99) / 100).
  assert (100 * m <= totalFiles + 99) as Hlo by apply Nat.Div0.mul_div_le.
  assert (totalFiles + 99 < 100 * S m) as Hhi
    by (apply Nat.mul_succ_div_gt; lia).
  split.
  - intros (j & <- & Hj). apply in_seq in Hj. exists j. split; [reflexivity | lia].
  - intros (j & -> & Hj). exists j. split; [reflexivity |].
    apply in_seq. lia.
Qed.

Lemma skipn_last {A} (l : list A) n x :
  length l = n + 1 -> last l = Some x -> skipn n l = [x].
Proof.
  intros Hlen Hlast. apply last_Some in Hlast as [l' ->].
  rewrite length_app in Hlen. simpl in Hlen.
  assert (n = length l') as -> by lia.
  apply drop_app_length.
Qed.

(** C4: a batch of exactly one file, not overridden and with no
    cancellation request, comes back as that one file, whatever the files
    contain; the last batch of a scan over [100 * k + 1] tracked files is
    such a batch, so the last tracked file is then reported. *)
Theorem singleton_batch_is_unused
    (rf : string -> option string) (ov : gmap string bool) (file : string) :
  Memento.get ov file = false ->
  (forall token clock,
      (forall j, isCancellationRequested token j = false) ->
      findUnusedFiles rf [file] ov token clock = ([file], S clock)) /\
  (forall trackedFiles k (token : CancellationToken),
      length trackedFiles = 100 * k + 1 ->
      last trackedFiles = Some file ->
      (forall j, token j = false) ->
      Js.slice trackedFiles (100 * k) (100 * k + batchSize) = [file] /\
      exists l,
        scan_loop rf trackedFiles ov token 0 []
          (batch_starts (length trackedFiles)) = Some l /\
        In file l).
Proof.
  intros Hov.
  assert (reportable rf ov [file] file = true) as Hrep.
  { unfold reportable, isUsed. simpl. rewrite Hov, String.eqb_refl. reflexivity. }
  split.
  - intros token clock Hn. unfold findUnusedFiles. simpl.
    rewrite Hn, Hov. unfold isUsed. simpl. rewrite String.eqb_refl. reflexivity.
  - intros trackedFiles k token Hlen Hlast Hn.
    assert (Js.slice trackedFiles (100 * k) (100 * k + batchSize) = [file]) as Hs.
    { unfold Js.slice.
      rewrite (skipn_last trackedFiles (100 * k) file Hlen Hlast).
      replace (100 * k + batchSize - 100 * k) with batchSize by lia.
      reflexivity. }
    split; [exact Hs |].
    eexists. split; [apply scan_loop_never; exact Hn |].
    apply in_flat_map. exists (100 * k). split.
    + rewrite batch_starts_eq, Hlen. apply in_map_iff. exists k. split.
      * unfold batchSize. lia.
      * apply in_seq. split; [lia |].
        replace (100 * k + 1 + 99) with ((k + 1) * 100) by lia.
        rewrite Nat.div_mul by lia. lia.
    + cbv zeta. rewrite Hs. simpl. rewrite Hrep. left. reflexivity.
Qed.

Lemma singleton_batch_is_unused_witness :
  findUnusedFiles (readFile "/root" abc_tree) ["/root/a.ts"] ∅
    (Some neverCancelled) 0 = (["/root/a.ts"], 1).
Proof.
  apply (singleton_batch_is_unused (readFile "/root" abc_tree) ∅ "/root/a.ts");
    reflexivity.
Defined.

(** ** Overrides *)

Lemma step_keeps_override st c p :
  ~ touches p c ->
  Memento.get (userOverrides (step st c)) p = Memento.get (userOverrides st) p.
Proof.
  destruct c as [w config token|q|q|q]; simpl; intros Hq.
  - unfold highlightUnusedFiles. destruct w as [[ws listing]|]; [|reflexivity].
    destruct (scan _ _ _ _ _); reflexivity.
  - unfold Memento.get. rewrite lookup_insert_ne by exact Hq. reflexivity.
  - unfold Memento.get. rewrite lookup_delete_ne by exact Hq. reflexivity.
  - reflexivity.
Qed.

Lemma run_keeps_override cs :
  forall st p,
    Forall (fun c => ~ touches p c) cs ->
    Memento.get (userOverrides (run st cs)) p = Memento.get (userOverrides st) p.
Proof.
  induction cs as [|c cs IH]; intros st p Hcs; [reflexivity |].
  inversion Hcs as [|? ? Hc Hrest]; subst. unfold run in *. simpl.
  rewrite IH by exact Hrest. apply step_keeps_override, Hc.
Qed.

(** C5, as the code behaves: a path whose override is "used" when a scan examines it is not in
    what the engine returns, not in the list the scan publishes, not among
    the tree items and never decorated as unused; and the override stays
    "used" through any commands other than a toggle or a reset of that
    path, so this holds for every later scan as well. *)
Theorem used_override_is_excluded (p : string) :
  (forall rf batch ov token clock,
      Memento.get ov p = true ->
      ~ In p (fst (findUnusedFiles rf batch ov token clock))) /\
  (forall config workspacePath listing ov token l,
      Memento.get ov p = true ->
      scan config workspacePath listing ov token = Some l -> ~ In p l) /\
  (forall st,
      Memento.get (userOverrides st) p = true ->
      (forall b, ~ In (p, b) (getChildren st)) /\
      provideFileDecoration st p <> Some UnusedBadge) /\
  (forall st cs,
      Memento.get (userOverrides st) p = true ->
      Forall (fun c => ~ touches p c) cs ->
      Memento.get (userOverrides (run st cs)) p = true).
Proof.
  repeat split.
  - intros rf batch ov token clock Hp. apply overridden_not_reported, Hp.
  - intros config ws listing ov token l Hp Hs Hin. unfold scan in Hs.
    destruct (scan_loop_In _ _ _ _ _ _ _ _ _ Hs Hin) as [[]|(i & c & _ & H)].
    revert H. apply overridden_not_reported, Hp.
  - intros b Hin. unfold getChildren in Hin.
    apply in_map_iff in Hin as (f & [= -> _] & Hf).
    apply filter_In in Hf as [_ Hf]. rewrite H in Hf. discriminate.
  - unfold provideFileDecoration. rewrite H.
    destruct (decide (p ∈ decorationUnusedFiles st)); discriminate.
  - intros st cs Hp Hcs. rewrite run_keeps_override by exact Hcs. exact Hp.
Qed.

Lemma used_override_is_excluded_witness :
  Memento.get (userOverrides (run c_marked_used abc_session)) "/root/c.ts" = true.
Proof.
  apply (used_override_is_excluded "/root/c.ts").
  - vm_compute. reflexivity.
  - unfold abc_session. repeat constructor; simpl; auto; discriminate.
Defined.

(** C5 as the specification states it fails: [c.ts] is marked used and
    no reset is ever called, yet after a second toggle of [c.ts] the next
    scan publishes it and the tree view shows it. *)
Lemma second_toggle_ends_exclusion :
  let p := "/root/c.ts" in
  let session :=
    [ToggleFileStatus p;
     HighlightUnusedFiles abc_project tsOnly neverCancelled] in
  Memento.get (userOverrides c_marked_used) p = true /\
  existsb (resets p) session = false /\
  In p (providerUnusedFiles (run c_marked_used session)) /\
  In (p, false) (getChildren (run c_marked_used session)).
Proof.
  cbv zeta.
  split; [vm_compute; reflexivity |].
  split; [vm_compute; reflexivity |].
  split; [vm_compute; auto |].
  vm_compute. auto.
Qed.

(** ** Cancellation inside a batch *)

(** C6: every file that [findUnusedFiles] returns belongs to the batch, has
    no "used" override and was compared with every other file of the
    batch: no other readable file contains its name or its stem. When
    the token is read as cancelled at the [n]-th file of the batch, the
    result only holds files among the first [n]: the files not reached are
    left out. *)
Theorem reported_files_were_examined
    (rf : string -> option string) (ov : gmap string bool)
    (batch : list string) (token : option CancellationToken)
    (clock : nat) (f : string) :
  In f (fst (findUnusedFiles rf batch ov token clock)) ->
  In f batch /\
  Memento.get ov f = false /\
  (forall other content,
      In other batch -> other <> f -> rf other = Some content ->
      Js.includes (Path.basename f) content = false /\
      Js.includes (withoutExtension (Path.basename f)) content = false) /\
  (forall n,
      isCancellationRequested token (clock + n) = true ->
      In f (firstn n batch)).
Proof.
  rewrite findUnusedFiles_fst. intros H.
  apply filter_In in H as [Hv Hr]. unfold reportable in Hr.
  apply andb_prop in Hr as [Ho Hu].
  apply negb_true_iff in Ho. apply negb_true_iff in Hu.
  split; [eapply visited_In, Hv |].
  split; [exact Ho |].
  split.
  - unfold isUsed in Hu. rewrite isUsed_loop_false in Hu. exact Hu.
  - intros n Hn. eapply visited_firstn; eauto.
Qed.

Lemma reported_files_were_examined_witness :
  In "/root/b.ts" (firstn 2 ["/root/a.ts"; "/root/b.ts"; "/root/c.ts"]).
Proof.
  apply (reported_files_were_examined (readFile "/root" abc_tree) ∅
           ["/root/a.ts"; "/root/b.ts"; "/root/c.ts"]
           (Some (cancelledFrom 2)) 0 "/root/b.ts").
  - vm_compute. left. reflexivity.
  - reflexivity.
Defined.

(** ** Deletion events *)

(** C10: the deletion handler replaces the provider's list by the same
    list without any occurrence of the deleted path, in the same order;
    when the path is not in the list the list is unchanged.  The handler
    only rewrites the two published collections: it reads no file, leaves
    the overrides alone and shows no scan notification. *)
Theorem onDidDelete_prunes (st : State) (p : string) :
  let L := providerUnusedFiles st in
  let st' := onDidDelete p st in
  providerUnusedFiles st' = List.remove string_dec p L /\
  ~ In p (providerUnusedFiles st') /\
  (forall q, q <> p -> count_occ string_dec (providerUnusedFiles st') q
                       = count_occ string_dec L q) /\
  (~ In p L -> providerUnusedFiles st' = L) /\
  decorationUnusedFiles st' = list_to_set (providerUnusedFiles st') /\
  userOverrides st' = userOverrides st /\
  shown st' = shown st.
Proof.
  cbv zeta. simpl.
  assert (forall L : list string,
    List.filter (fun file => negb (String.eqb file p)) L = List.remove string_dec p L)
    as Hrem.
  { induction L as [|x L IH]; simpl; [reflexivity |].
    destruct (string_dec p x) as [->|Hne].
    - rewrite String.eqb_refl. simpl. exact IH.
    - destruct (String.eqb_spec x p) as [->|_]; [congruence |].
      simpl. rewrite IH. reflexivity. }
  rewrite Hrem.
  split; [reflexivity |].
  split; [apply remove_In |].
  split; [| split; [apply notin_remove | auto]].
  intros q Hq. induction (providerUnusedFiles st) as [|x L IH]; simpl;
    [reflexivity |].
  destruct (string_dec p x) as [->|Hne]; simpl.
  - destruct (string_dec x q); [congruence | exact IH].
  - destruct (string_dec x q); rewrite IH; reflexivity.
Qed.

Lemma onDidDelete_prunes_witness :
  providerUnusedFiles (onDidDelete "/root/a.ts" c_marked_used)
  = providerUnusedFiles c_marked_used.
Proof.
  apply (onDidDelete_prunes c_marked_used "/root/a.ts").
  vm_compute. intros [H|[H|[]]]; discriminate H.
Defined.

(** ** Whole scans *)

Lemma reportable_no_override rf (ov : gmap string bool) trackedFiles :
  (forall p, Memento.get ov p = false) ->
  forall f, reportable rf ov trackedFiles f = negb (isUsed rf trackedFiles f).
Proof. intros H f. unfold reportable. rewrite H. reflexivity. Qed.

Lemma In_eqb x l : existsb (String.eqb x) l = true -> In x l.
Proof.
  intros H. apply existsb_exists in H as (y & Hy & E).
  apply String.eqb_eq in E. congruence.
Qed.

(** C3, as the code behaves: on the project made of [a.ts] (empty), [b.ts]
    containing [import "./a"] and [c.ts] (empty), tracking [.ts] only, with
    nothing ignored and no override, a scan that is not cancelled returns
    [/root/b.ts] and [/root/c.ts], in this order. *)
Theorem abc_scan_reports_b_and_c (ov : gmap string bool) (token : CancellationToken) :
  (forall p, Memento.get ov p = false) ->
  (forall k, token k = false) ->
  scan tsOnly "/root" (Some abc_tree) ov token = Some ["/root/b.ts"; "/root/c.ts"].
Proof.
  intros Hov Hn. unfold scan. rewrite scan_loop_never by exact Hn.
  assert (trackedOf tsOnly
            (getAllFiles "/root" (ignoreFolders tsOnly) (ignoreRootFiles tsOnly)
               (Some abc_tree))
          = ["/root/a.ts"; "/root/b.ts"; "/root/c.ts"]) as -> by reflexivity.
  change (batch_starts (length ["/root/a.ts"; "/root/b.ts"; "/root/c.ts"]))
    with [0].
  cbv zeta.
  change (Js.slice ["/root/a.ts"; "/root/b.ts"; "/root/c.ts"] 0 (0 + batchSize))
    with ["/root/a.ts"; "/root/b.ts"; "/root/c.ts"].
  unfold flat_map. rewrite app_nil_r, app_nil_l.
  rewrite (filter_ext _ _ (reportable_no_override _ ov _ Hov)).
  vm_compute. reflexivity.
Qed.

Lemma abc_scan_reports_b_and_c_witness :
  scan tsOnly "/root" (Some abc_tree) ∅ neverCancelled
  = Some ["/root/b.ts"; "/root/c.ts"].
Proof.
  apply (abc_scan_reports_b_and_c ∅ neverCancelled); reflexivity.
Defined.

(** C3 as the specification states it fails: the scan of that project
    does not return [/root/c.ts] alone. *)
Lemma abc_scan_is_not_c_alone :
  scan tsOnly "/root" (Some abc_tree) ∅ neverCancelled
    = Some ["/root/b.ts"; "/root/c.ts"] /\
  scan tsOnly "/root" (Some abc_tree) ∅ neverCancelled <> Some ["/root/c.ts"].
Proof. split; [vm_compute; reflexivity | vm_compute; discriminate]. Qed.

(** C1 at a failing input: in the project of 101 tracked files, [a.ts]
    contains the name [zz.ts] verbatim, [zz.ts] has no override, and the
    uncancelled scan still lists [/root/zz.ts] as unused: [zz.ts] is
    alone in the second batch and [a.ts] is in the first. *)
Theorem reference_from_another_batch_is_missed :
  let trackedFiles :=
    trackedOf tsOnly (getAllFiles "/root" [] [] (Some wide_tree)) in
  length trackedFiles = 101 /\
  In "/root/a.ts" trackedFiles /\
  In "/root/zz.ts" trackedFiles /\
  Path.basename "/root/zz.ts" = "zz.ts" /\
  (exists content,
      readFile "/root" wide_tree "/root/a.ts" = Some content /\
      occurs_in "zz.ts" content) /\
  Memento.get ∅ "/root/zz.ts" = false /\
  exists l,
    scan tsOnly "/root" (Some wide_tree) ∅ neverCancelled = Some l /\
    In "/root/zz.ts" l.
Proof.
  cbv zeta.
  split; [vm_compute; reflexivity |].
  split; [apply In_eqb; vm_compute; reflexivity |].
  split; [apply In_eqb; vm_compute; reflexivity |].
  split; [vm_compute; reflexivity |].
  split.
  { exists "import './zz.ts'". split; [vm_compute; reflexivity |].
    exists "import './", "'". reflexivity. }
  split; [reflexivity |].
  eexists. split.
  { unfold scan. apply scan_loop_never. reflexivity. }
  assert (trackedOf tsOnly
            (getAllFiles "/root" (ignoreFolders tsOnly) (ignoreRootFiles tsOnly)
               (Some wide_tree))
          = trackedOf tsOnly (getAllFiles "/root" [] [] (Some wide_tree)))
    as -> by reflexivity.
  set (trackedFiles := trackedOf tsOnly (getAllFiles "/root" [] [] (Some wide_tree))).
  assert (length trackedFiles = 101) as -> by (vm_compute; reflexivity).
  assert (Js.slice trackedFiles 100 (100 + batchSize) = ["/root/zz.ts"]) as Hlast
    by (vm_compute; reflexivity).
  rewrite app_nil_l. refine (proj2 (in_flat_map _ _ _) _). exists 100. split.
  - change (batch_starts 101) with [0; 100]. right. left. reflexivity.
  - cbv zeta. rewrite Hlast. vm_compute. left. reflexivity.
Qed.

(** ** Cancellation between batches *)

Lemma slice_full {A} (l : list A) i :
  i + batchSize <= length l -> length (Js.slice l i (i + batchSize)) = batchSize.
Proof.
  intros H. unfold Js.slice. rewrite length_take, length_drop. lia.
Qed.

(** Every batch but the last holds [batchSize] files. *)
Lemma batch_starts_full {A} (l : list A) i :
  In i (removelast (batch_starts (length l))) ->
  length (Js.slice l i (i + batchSize)) = batchSize.
Proof.
  rewrite batch_starts_eq. intros Hi. apply slice_full.
  set (m := (length l + 99) / 100) in *.
  assert (100 * m <= length l + 99) as Hm by (apply Nat.Div0.mul_div_le).
  destruct m as [|m]; [destruct Hi |].
  rewrite seq_S, map_app in Hi. simpl in Hi. rewrite removelast_last in Hi.
  apply in_map_iff in Hi as (j & <- & Hj). apply in_seq in Hj.
  unfold batchSize. lia.
Qed.

Section Cancelled.

Variable rf : string -> option string.
Variable ov : gmap string bool.
Variable trackedFiles : list string.
Variable n : nat.

(** Once the request has been made no later than the token read at the
    head of the last batch, the batch loop returns at a batch head. *)
Lemma scan_loop_cancelled starts :
  forall clock acc,
    starts <> [] ->
    (forall i, In i (removelast starts) ->
               length (Js.slice trackedFiles i (i + batchSize)) = batchSize) ->
    n <= clock + (batchSize + 1) * (length starts - 1) ->
    scan_loop rf trackedFiles ov (cancelledFrom n) clock acc starts = None.
Proof.
  induction starts as [|i more IH]; intros clock acc Hne Hfull Hn;
    [congruence |].
  simpl scan_loop. unfold cancelledFrom at 1.
  destruct (Nat.leb_spec n clock) as [Hle|Hlt]; [reflexivity |].
  destruct (findUnusedFiles rf (Js.slice trackedFiles i (i + batchSize)) ov
              (Some (cancelledFrom n)) (S clock)) as [bu clock'] eqn:E.
  destruct more as [|i2 more'].
  { simpl in Hn. lia. }
  apply IH; [discriminate | |].
  - intros j Hj. apply Hfull.
    change (In j (removelast (i :: i2 :: more'))) with
      (In j (i :: removelast (i2 :: more'))).
    right. exact Hj.
  - pose proof (findUnused_loop_snd rf ov
      (Js.slice trackedFiles i (i + batchSize)) (Some (cancelledFrom n))
      (Js.slice trackedFiles i (i + batchSize)) (S clock) []) as Hc.
    cbv zeta in Hc. fold (findUnusedFiles rf
      (Js.slice trackedFiles i (i + batchSize)) ov (Some (cancelledFrom n))
      (S clock)) in Hc.
    rewrite E in Hc. simpl snd in Hc.
    destruct Hc as [Hc|(k & Hk & Hck)].
    + rewrite Hfull in Hc by (left; reflexivity).
      simpl length in *. unfold batchSize in *. lia.
    + simpl in Hck. unfold cancelledFrom in Hck.
      apply Nat.leb_le in Hck. simpl length. lia.
Qed.

End Cancelled.

(** C2, as the code behaves: when cancellation is requested no later than
    the token read at the head of the last batch, the command does not
    raise; it shows 'Scan canceled by user.' and returns without
    publishing anything: the provider's list, the decorations and the
    overrides are what they were before the scan. *)
Theorem cancelled_scan_publishes_nothing
    (config : Config) (workspacePath : string) (listing : option (list entry))
    (st : State) (n : nat) :
  let trackedFiles :=
    trackedOf config
      (getAllFiles workspacePath (ignoreFolders config) (ignoreRootFiles config)
         listing) in
  let batches := length (batch_starts (length trackedFiles)) in
  0 < batches ->
  n <= (batchSize + 1) * (batches - 1) ->
  let st' :=
    highlightUnusedFiles (Some (workspacePath, listing)) config
      (cancelledFrom n) st in
  scan config workspacePath listing (userOverrides st) (cancelledFrom n) = None /\
  providerUnusedFiles st' = providerUnusedFiles st /\
  decorationUnusedFiles st' = decorationUnusedFiles st /\
  userOverrides st' = userOverrides st /\
  shown st' = shown st ++ [ScanCanceledByUser].
Proof.
  intros trackedFiles batches Hpos Hn st'.
  assert (scan config workspacePath listing (userOverrides st) (cancelledFrom n)
          = None) as Hs.
  { unfold scan. fold trackedFiles. apply scan_loop_cancelled.
    - intros E. subst batches. rewrite E in Hpos. simpl in Hpos. lia.
    - apply batch_starts_full.
    - subst batches. lia. }
  subst st'. unfold highlightUnusedFiles. rewrite Hs. auto.
Qed.

Lemma cancelled_scan_publishes_nothing_witness :
  providerUnusedFiles
    (highlightUnusedFiles (Some ("/root", Some wide_tree)) tsOnly
       (cancelledFrom 101) c_marked_used)
  = providerUnusedFiles c_marked_used.
Proof.
  apply (cancelled_scan_publishes_nothing tsOnly "/root" (Some wide_tree)
           c_marked_used 101).
  - vm_compute. lia.
  - vm_compute. lia.
Defined.

(** C2 as the specification states it fails: with the request made after
    the first batch of the 101-file project, the first batch has been
    processed and has reported [/root/a.ts], yet the command publishes no
    list at all. *)
Lemma cancelled_scan_drops_partial_result :
  let token := cancelledFrom 101 in
  let trackedFiles :=
    trackedOf tsOnly (getAllFiles "/root" [] [] (Some wide_tree)) in
  let st' :=
    highlightUnusedFiles (Some ("/root", Some wide_tree)) tsOnly token
      (activate ∅) in
  token 100 = false /\ token 101 = true /\
  existsb (String.eqb "/root/a.ts")
    (fst (findUnusedFiles (readFile "/root" wide_tree)
            (Js.slice trackedFiles 0 (0 + batchSize)) ∅ (Some token) 1)) = true /\
  scan tsOnly "/root" (Some wide_tree) ∅ token = None /\
  providerUnusedFiles st' = [] /\
  shown st' = [ScanCanceledByUser].
Proof.
  cbv zeta.
  set (trackedFiles := trackedOf tsOnly (getAllFiles "/root" [] [] (Some wide_tree))).
  assert (length trackedFiles = 101) as Hlen by (vm_compute; reflexivity).
  assert (scan tsOnly "/root" (Some wide_tree) ∅ (cancelledFrom 101) = None) as Hs.
  { unfold scan.
    change (trackedOf tsOnly
              (getAllFiles "/root" (ignoreFolders tsOnly) (ignoreRootFiles tsOnly)
                 (Some wide_tree))) with trackedFiles.
    apply scan_loop_cancelled.
    - rewrite Hlen. discriminate.
    - apply batch_starts_full.
    - rewrite Hlen. vm_compute. lia. }
  split; [reflexivity |].
  split; [reflexivity |].
  split.
  { rewrite findUnusedFiles_fst.
    assert (In "/root/a.ts"
              (List.filter
                 (reportable (readFile "/root" wide_tree) ∅
                    (Js.slice trackedFiles 0 (0 + batchSize)))
                 (visited (Some (cancelledFrom 101)) 1
                    (Js.slice trackedFiles 0 (0 + batchSize))))) as Hin.
    { refine (proj2 (filter_In _ _ _) _). split.
      - apply In_eqb. vm_compute. reflexivity.
      - vm_compute. reflexivity. }
    apply existsb_exists. exists "/root/a.ts". split; [exact Hin |].
    apply String.eqb_refl. }
  split; [exact Hs |].
  unfold highlightUnusedFiles.
  change (userOverrides (activate ∅)) with (∅ : gmap string bool).
  rewrite Hs. split; reflexivity.
Qed.

(** ** The tree walker *)

Lemma arr_includes_In l x : Js.arr_includes l x = true <-> In x l.
Proof.
  unfold Js.arr_includes. rewrite existsb_exists. split.
  - intros (y & Hy & E). apply String.eqb_eq in E. congruence.
  - intros H. exists x. split; [exact H | apply String.eqb_refl].
Qed.

Lemma append_assoc (a b c : string) : (a +:+ b) +:+ c = a +:+ (b +:+ c).
Proof.
  induction a as [|x a IH]; [reflexivity |].
  rewrite !append_cons, IH. reflexivity.
Qed.

Lemma fold_join_segments comps :
  forall root, fold_left Path.join comps root = root +:+ segments comps.
Proof.
  induction comps as [|c rest IH]; intros root; simpl.
  - induction root as [|x root IHr]; [reflexivity |].
    rewrite append_cons, <- IHr. reflexivity.
  - rewrite IH. unfold Path.join. rewrite !append_assoc. reflexivity.
Qed.

Lemma path_of_cons root d dirs name :
  path_of root (d :: dirs) name = path_of (Path.join root d) dirs name.
Proof. reflexivity. Qed.

Lemma segments_shape comps : starts_with_slash_or_empty (segments comps).
Proof.
  destruct comps as [|c rest]; [left; reflexivity |].
  right. exists (c +:+ segments rest). reflexivity.
Qed.

Lemma no_slash_cons c s :
  no_slash (String c s) = true -> c <> "/"%char /\ no_slash s = true.
Proof.
  simpl. intros H. apply andb_prop in H as [H1 H2]. split; [|exact H2].
  intros ->. discriminate.
Qed.

(** A segment that holds no separator ends where the next one begins. *)
Lemma segment_split a :
  forall b ra rb,
    no_slash a = true -> no_slash b = true ->
    starts_with_slash_or_empty ra -> starts_with_slash_or_empty rb ->
    a +:+ ra = b +:+ rb -> a = b /\ ra = rb.
Proof.
  induction a as [|x a IH]; intros b ra rb Ha Hb Hra Hrb E.
  - rewrite append_nil in E. destruct b as [|y b].
    + rewrite append_nil in E. auto.
    + rewrite append_cons in E. apply no_slash_cons in Hb as [Hy _].
      destruct Hra as [->|[r ->]]; [discriminate | congruence].
  - rewrite append_cons in E. apply no_slash_cons in Ha as [Hx Ha].
    destruct b as [|y b].
    + rewrite append_nil in E.
      destruct Hrb as [->|[r ->]]; [discriminate | congruence].
    + rewrite append_cons in E. apply no_slash_cons in Hb as [_ Hb].
      injection E as -> E.
      destruct (IH b ra rb Ha Hb Hra Hrb E) as [-> ->]. auto.
Qed.

Lemma segments_inj c1 :
  forall c2,
    Forall (fun c => no_slash c = true) c1 ->
    Forall (fun c => no_slash c = true) c2 ->
    segments c1 = segments c2 -> c1 = c2.
Proof.
  induction c1 as [|a r1 IH]; intros [|b r2] H1 H2 E; simpl in E;
    try reflexivity; try (rewrite append_cons in E; discriminate).
  inversion H1; subst. inversion H2; subst.
  rewrite !append_cons, !append_nil in E. injection E as E.
  destruct (segment_split a b (segments r1) (segments r2)) as [-> Hr];
    auto using segments_shape.
  f_equal. apply IH; auto.
Qed.

(** Two entries with the same path are reached through the same
    directories and bear the same name. *)
Lemma path_of_inj root dirs1 name1 dirs2 name2 :
  Forall (fun c => no_slash c = true) (dirs1 ++ [name1]) ->
  Forall (fun c => no_slash c = true) (dirs2 ++ [name2]) ->
  path_of root dirs1 name1 = path_of root dirs2 name2 ->
  dirs1 = dirs2 /\ name1 = name2.
Proof.
  unfold path_of. rewrite !fold_join_segments. intros H1 H2 E.
  apply String.app_inj in E. apply segments_inj in E; [|assumption..].
  apply app_inj_tail in E. exact E.
Qed.

Lemma entry_files_no_slash e :
  entry_wf e = true ->
  forall dirs name,
    In (dirs, name) (entry_files e) ->
    Forall (fun c => no_slash c = true) (dirs ++ [name]).
Proof.
  induction e as [n c|n items IH|n] using entry_induction;
    intros Hwf dirs name Hin; simpl in *.
  - destruct Hin as [[= <- <-]|[]]. repeat constructor. exact Hwf.
  - apply andb_prop in Hwf as [Hn Hitems].
    apply in_map_iff in Hin as ([ds nm] & [= <- <-] & Hin).
    apply in_flat_map in Hin as (item & Hitem & Hin). simpl.
    constructor; [exact Hn |].
    rewrite List.Forall_forall in IH. apply (IH item Hitem); [|exact Hin].
    rewrite forallb_forall in Hitems. apply Hitems, Hitem.
  - destruct Hin.
Qed.

(** Whatever the walker lists is a non-directory entry of the tree whose
    name is not an ignored file name and none of whose directories bears
    an ignored folder name. *)
Lemma getAllFiles_item_sound igF igR e :
  forall dirPath p,
    In p (getAllFiles_item dirPath igF igR e) ->
    exists dirs name,
      In (dirs, name) (entry_files e) /\
      p = path_of dirPath dirs name /\
      Forall (fun d => Js.arr_includes igF d = false) dirs /\
      Js.arr_includes igR name = false.
Proof.
  induction e as [n c|n items IH|n] using entry_induction;
    intros dirPath p Hin; simpl in Hin.
  - destruct (Js.arr_includes igR n) eqn:E; [destruct Hin |].
    destruct Hin as [<-|[]]. exists [], n. simpl. auto.
  - destruct (Js.arr_includes igF n) eqn:E; [destruct Hin |].
    apply in_flat_map in Hin as (item & Hitem & Hin).
    rewrite List.Forall_forall in IH.
    destruct (IH item Hitem _ _ Hin) as (dirs & name & Hf & -> & Hd & Hn).
    exists (n :: dirs), name. split; [|auto].
    simpl. apply in_map_iff. exists (dirs, name). split; [reflexivity |].
    apply in_flat_map. exists item. auto.
  - destruct (Js.arr_includes igF n); destruct Hin.
Qed.

Lemma getAllFiles_sound root igF igR items p :
  In p (getAllFiles root igF igR (Some items)) ->
  exists dirs name,
    In (dirs, name) (tree_files items) /\
    p = path_of root dirs name /\
    Forall (fun d => Js.arr_includes igF d = false) dirs /\
    Js.arr_includes igR name = false.
Proof.
  simpl. intros Hin. apply in_flat_map in Hin as (item & Hitem & Hin).
  destruct (getAllFiles_item_sound _ _ _ _ _ Hin) as (dirs & name & Hf & H).
  exists dirs, name. split; [|exact H].
  apply in_flat_map. exists item. auto.
Qed.

Lemma tree_files_no_slash items dirs name :
  forallb entry_wf items = true ->
  In (dirs, name) (tree_files items) ->
  Forall (fun c => no_slash c = true) (dirs ++ [name]).
Proof.
  intros Hwf Hin. apply in_flat_map in Hin as (item & Hitem & Hin).
  apply (entry_files_no_slash item); [|exact Hin].
  rewrite forallb_forall in Hwf. apply Hwf, Hitem.
Qed.

(** C7: a file of the tree that lies below a directory whose name is an
    entry of [ignoreFolders], at whatever depth, is not in the list the
    walker returns. *)
Theorem ignored_folder_is_pruned
    (root : string) (ignoreFolders ignoreRootFiles : list string)
    (items : list entry) (dirs : list string) (name d : string) :
  forallb entry_wf items = true ->
  In (dirs, name) (tree_files items) ->
  In d dirs -> In d ignoreFolders ->
  ~ In (path_of root dirs name)
      (getAllFiles root ignoreFolders ignoreRootFiles (Some items)).
Proof.
  intros Hwf Hfile Hd Hig Hin.
  destruct (getAllFiles_sound _ _ _ _ _ Hin) as (dirs' & name' & Hf' & E & Hok & _).
  apply path_of_inj in E as [-> _]; eauto using tree_files_no_slash.
  rewrite List.Forall_forall in Hok. specialize (Hok d Hd).
  apply arr_includes_In in Hig. congruence.
Qed.

Lemma ignored_folder_is_pruned_witness :
  getAllFiles "/root" ["vendor"] [] (Some nested_tree)
    = ["/root/src/y.ts"; "/root/src/README.md"] /\
  ~ In (path_of "/root" ["src"; "vendor"] "x.ts")
      (getAllFiles "/root" ["vendor"] [] (Some nested_tree)).
Proof.
  split; [reflexivity |].
  apply (ignored_folder_is_pruned "/root" ["vendor"] [] nested_tree
           ["src"; "vendor"] "x.ts" "vendor").
  - reflexivity.
  - simpl. auto.
  - simpl. auto.
  - simpl. auto.
Defined.

(** C8: a non-directory entry whose name is an entry of [ignoreRootFiles]
    is not in the list the walker returns, in whichever directory of the
    tree it lies. *)
Theorem ignored_file_name_is_skipped_everywhere
    (root : string) (ignoreFolders ignoreRootFiles : list string)
    (items : list entry) (dirs : list string) (name : string) :
  forallb entry_wf items = true ->
  In (dirs, name) (tree_files items) ->
  In name ignoreRootFiles ->
  ~ In (path_of root dirs name)
      (getAllFiles root ignoreFolders ignoreRootFiles (Some items)).
Proof.
  intros Hwf Hfile Hig Hin.
  destruct (getAllFiles_sound _ _ _ _ _ Hin) as (dirs' & name' & Hf' & E & _ & Hok).
  apply path_of_inj in E as [_ ->]; eauto using tree_files_no_slash.
  apply arr_includes_In in Hig. congruence.
Qed.

Lemma ignored_file_name_is_skipped_everywhere_witness :
  getAllFiles "/root" [] ["README.md"] (Some nested_tree)
    = ["/root/src/y.ts"; "/root/src/vendor/x.ts"; "/root/vendor/x.ts"] /\
  ~ In (path_of "/root" ["src"] "README.md")
      (getAllFiles "/root" [] ["README.md"] (Some nested_tree)).
Proof.
  split; [reflexivity |].
  apply (ignored_file_name_is_skipped_everywhere "/root" [] ["README.md"]
           nested_tree ["src"] "README.md").
  - reflexivity.
  - simpl. auto.
  - simpl. auto.
Defined.

(** ** The configuration resolver *)

Lemma fold_insert_lookup members key :
  forall m : gmap string json,
    fold_left (fun m kv => <[fst kv := snd kv]> m) members m !! key =
    match userValue members key with
    | Some v => Some v
    | None => m !! key
    end.
Proof.
  induction members as [|[k v] rest IH]; intros m; simpl; [reflexivity |].
  rewrite IH. destruct (userValue rest key); [reflexivity |].
  destruct (String.eqb_spec k key) as [->|Hne].
  - apply lookup_insert_eq.
  - apply lookup_insert_ne, Hne.
Qed.

Lemma ownProperties_object members key :
  ownProperties (JObject members) !! key = userValue members key.
Proof.
  simpl. rewrite fold_insert_lookup, lookup_empty.
  destruct (userValue members key); reflexivity.
Qed.

Lemma spread_lookup (a b : gmap string json) key :
  spread a b !! key =
  match b !! key with
  | Some v => Some v
  | None => a !! key
  end.
Proof.
  unfold spread. destruct (b !! key) as [v|] eqn:E.
  - apply lookup_union_Some_l, E.
  - apply lookup_union_r, E.
Qed.

(** C9: [readConfigFile] always returns normally.  It returns the
    built-in defaults when the file is missing, when it cannot be read and
    when its text does not parse.  When the text parses as an object, each
    key of the result has the user's value if the user gave one (the whole
    value, with no merging) and the default value otherwise; this holds
    for [fileTypes], [ignoreFolders] and [ignoreRootFiles] in particular. *)
Theorem readConfigFile_falls_back_and_overlays
    (JSON_parse : string -> completion json) (f : configFile) :
  (exists c, readConfigFile JSON_parse f = Normal c) /\
  (f = Missing \/ f = Unreadable ->
   readConfigFile JSON_parse f = Normal defaultConfig) /\
  (forall text,
      f = Content text -> JSON_parse text = Throw ->
      readConfigFile JSON_parse f = Normal defaultConfig) /\
  (forall text members,
      f = Content text -> JSON_parse text = Normal (JObject members) ->
      exists c,
        readConfigFile JSON_parse f = Normal c /\
        (forall key,
            c !! key = (match userValue members key with
                        | Some v => Some v
                        | None => defaultConfig !! key
                        end))) /\
  (defaultConfig !! "fileTypes" = Some (strings defaultFileTypes)) /\
  (defaultConfig !! "ignoreFolders" = Some (strings defaultIgnoreFolders)) /\
  (defaultConfig !! "ignoreRootFiles" = Some (strings defaultIgnoreRootFiles)).
Proof.
  split; [| split; [| split; [| split]]].
  - destruct f as [| |text]; simpl; eauto.
    unfold readConfigFile. simpl. destruct (JSON_parse text); simpl; eauto.
  - intros [->| ->]; reflexivity.
  - intros text -> Hp. unfold readConfigFile. simpl. rewrite Hp. reflexivity.
  - intros text members -> Hp. unfold readConfigFile. simpl bind.
    rewrite Hp. simpl. eexists. split; [reflexivity |].
    intros key. rewrite spread_lookup, fold_insert_lookup, lookup_empty.
    destruct (userValue members key); reflexivity.
  - split; [| split]; vm_compute; reflexivity.
Qed.

Lemma readConfigFile_falls_back_and_overlays_witness :
  exists c,
    readConfigFile ts_config_parse (Content ts_config_text) = Normal c /\
    (forall key,
        c !! key = match userValue ts_config_members key with
                   | Some v => Some v
                   | None => defaultConfig !! key
                   end).
Proof.
  apply (readConfigFile_falls_back_and_overlays ts_config_parse
           (Content ts_config_text)) with (text := ts_config_text);
    reflexivity.
Defined.

(** X17: whatever the store held from an earlier session, [activate]
    leaves it empty: updating every key of the store to [undefined]
    removes them all. *)
Lemma activate_clears stored : userOverrides (activate stored) = ∅.
Proof.
  unfold activate. simpl. apply map_eq. intros k. rewrite lookup_empty.
  assert (forall keys (m : gmap string bool),
    foldr (fun key m => Memento.update m key None) m keys !! k =
    if decide (k ∈ keys) then None else m !! k) as Hfold.
  { induction keys as [|x keys IH]; intros m; cbn [foldr Memento.update].
    - rewrite decide_False by apply not_elem_of_nil. reflexivity.
    - destruct (decide (x = k)) as [->|Hne].
      + rewrite lookup_delete_eq, decide_True by apply list_elem_of_here.
        reflexivity.
      + rewrite lookup_delete_ne by exact Hne. rewrite IH.
        destruct (decide (k ∈ keys)) as [Hin|Hnin].
        * rewrite decide_True by (apply list_elem_of_further, Hin). reflexivity.
        * rewrite decide_False; [reflexivity |].
          intros H. apply elem_of_cons in H as [->|H]; [congruence | auto]. }
  rewrite Hfold. destruct (decide (k ∈ map fst (map_to_list stored))) as [|Hn];
    [reflexivity |].
  destruct (stored !! k) as [v|] eqn:E; [|reflexivity].
  exfalso. apply Hn. apply list_elem_of_In, in_map_iff. exists (k, v).
  split; [reflexivity |]. apply list_elem_of_In, elem_of_map_to_list, E.
Qed.


(** * Further properties of the code *)

(** ** The heuristic *)

Lemma split_shape s :
  exists h t, Js.split "." s = h :: t.
Proof.
  induction s as [|c r (h & t & IH)]; simpl; [eauto |].
  destruct (Ascii.eqb c "."); [eauto |]. rewrite IH. eauto.
Qed.

Lemma concat_cons_char c h (Y : list string) :
  String.concat "." (String c h :: Y) = String c (String.concat "." (h :: Y)).
Proof. destruct Y; reflexivity. Qed.

(** The stem is a prefix of the name. *)
Lemma stem_is_prefix s : exists rest, s = withoutExtension s +:+ rest.
Proof.
  unfold withoutExtension, Js.join, Js.slice_0_m1.
  induction s as [|c r IH].
  - exists EmptyString. reflexivity.
  - destruct IH as [rest IH]. simpl Js.split.
    destruct (split_shape r) as (h & t & Hs). rewrite Hs in *.
    destruct (Ascii.eqb_spec c ".") as [->|Hc].
    + change (removelast (EmptyString :: h :: t))
        with (EmptyString :: removelast (h :: t)).
      destruct (removelast (h :: t)) as [|x xs] eqn:Hx.
      * exists (String "." r). reflexivity.
      * exists rest.
        change (String.concat "." (EmptyString :: x :: xs))
          with (String "." (String.concat "." (x :: xs))).
        rewrite append_cons, <- IH. reflexivity.
    + destruct t as [|t1 t'].
      * exists (String c r). reflexivity.
      * change (removelast (String c h :: t1 :: t'))
          with (String c h :: removelast (t1 :: t')).
        change (removelast (h :: t1 :: t')) with (h :: removelast (t1 :: t')) in IH.
        exists rest. rewrite concat_cons_char, append_cons, <- IH. reflexivity.
Qed.

Lemma occurs_in_prefix a b content :
  occurs_in (a +:+ b) content -> occurs_in a content.
Proof.
  intros (pre & post & ->). exists pre, (b +:+ post).
  rewrite append_assoc. reflexivity.
Qed.

Lemma name_occurs_stem_occurs fileName content :
  Js.includes fileName content = true ->
  Js.includes (withoutExtension fileName) content = true.
Proof.
  rewrite !includes_occurs. destruct (stem_is_prefix fileName) as [rest E].
  rewrite E at 1. apply occurs_in_prefix.
Qed.

Lemma isUsed_loop_true rf file fileName stem others :
  isUsed_loop rf file fileName stem others = true <->
  exists other content,
    In other others /\ other <> file /\ rf other = Some content /\
    (Js.includes fileName content = true \/ Js.includes stem content = true).
Proof.
  induction others as [|o rest IH]; simpl.
  - split; [discriminate | intros (? & ? & [] & _)].
  - destruct (String.eqb_spec o file) as [->|Hne].
    + rewrite IH. split.
      * intros (other & content & Hin & H). exists other, content. auto.
      * intros (other & content & [<-|Hin] & Hn & H); [congruence |].
        exists other, content. auto.
    + destruct (rf o) as [c|] eqn:Hc.
      * destruct (Js.includes fileName c) eqn:E1.
        { split; [intros _ | reflexivity]. exists o, c. auto. }
        destruct (Js.includes stem c) eqn:E2.
        { split; [intros _ | reflexivity]. exists o, c. auto. }
        rewrite IH. split.
        -- intros (other & content & Hin & H). exists other, content. auto.
        -- intros (other & content & [<-|Hin] & Hn & Hr & H).
           ++ assert (content = c) as -> by congruence.
              destruct H; congruence.
           ++ exists other, content. auto.
      * rewrite IH. split.
        -- intros (other & content & Hin & H). exists other, content. auto.
        -- intros (other & content & [<-|Hin] & Hn & Hr & H); [congruence |].
           exists other, content. auto.
Qed.

(** X1: a file counts as used exactly when another readable file of the
    list handed to the engine contains its stem; the test on the full file
    name never decides, since the stem is a prefix of the name. *)
Theorem isUsed_iff_stem_occurs
    (rf : string -> option string) (trackedFiles : list string) (file : string) :
  isUsed rf trackedFiles file = true <->
  exists other content,
    In other trackedFiles /\ other <> file /\ rf other = Some content /\
    occurs_in (withoutExtension (Path.basename file)) content.
Proof.
  unfold isUsed. rewrite isUsed_loop_true. split.
  - intros (other & content & Hin & Hn & Hr & H). exists other, content.
    repeat (split; [assumption |]). apply includes_occurs.
    destruct H as [H|H]; [apply name_occurs_stem_occurs, H | exact H].
  - intros (other & content & Hin & Hn & Hr & H). exists other, content.
    repeat (split; [assumption |]). right. apply includes_occurs, H.
Qed.

Lemma split_no_dot s : no_dot s = true -> Js.split "." s = [s].
Proof.
  induction s as [|c r IH]; simpl; [reflexivity |].
  intros H. apply andb_prop in H as [Hc Hr].
  destruct (Ascii.eqb c "."); [discriminate |]. rewrite IH by exact Hr.
  reflexivity.
Qed.

Lemma includes_empty content : Js.includes EmptyString content = true.
Proof. rewrite includes_unfold. destruct content; reflexivity. Qed.

(** X2: a file whose base name holds no dot has the empty stem, which
    every content includes: as soon as the list holds another file that
    can be read, the engine counts it as used and never reports it. *)
Theorem dotless_name_is_always_used
    (rf : string -> option string) (ov : gmap string bool)
    (trackedFiles : list string) (file other content : string)
    (token : option CancellationToken) (clock : nat) :
  no_dot (Path.basename file) = true ->
  In other trackedFiles -> other <> file -> rf other = Some content ->
  withoutExtension (Path.basename file) = EmptyString /\
  isUsed rf trackedFiles file = true /\
  ~ In file (fst (findUnusedFiles rf trackedFiles ov token clock)).
Proof.
  intros Hdot Hin Hne Hr.
  assert (withoutExtension (Path.basename file) = EmptyString) as Hstem.
  { unfold withoutExtension. rewrite split_no_dot by exact Hdot. reflexivity. }
  assert (isUsed rf trackedFiles file = true) as Hused.
  { unfold isUsed. apply isUsed_loop_true. exists other, content.
    repeat (split; [assumption |]). right. rewrite Hstem. apply includes_empty. }
  split; [exact Hstem |]. split; [exact Hused |].
  rewrite findUnusedFiles_fst. intros H. apply filter_In in H as [_ H].
  unfold reportable in H. rewrite Hused in H.
  rewrite andb_false_r in H. discriminate.
Qed.

Lemma dotless_name_is_always_used_witness :
  isUsed (fun p => if String.eqb p "/root/a.ts" then Some "x" else None)
    ["/root/Makefile"; "/root/a.ts"] "/root/Makefile" = true.
Proof.
  apply (dotless_name_is_always_used
           (fun p => if String.eqb p "/root/a.ts" then Some "x" else None)
           ∅ ["/root/Makefile"; "/root/a.ts"] "/root/Makefile" "/root/a.ts" "x"
           None 0).
  - reflexivity.
  - simpl. auto.
  - discriminate.
  - reflexivity.
Defined.

(** ** Overrides and what the views show *)

Lemma findUnused_loop_ext rf trackedFiles (ov1 ov2 : gmap string bool) token todo :
  (forall f, Memento.get ov1 f = Memento.get ov2 f) ->
  forall clock acc,
    findUnused_loop rf trackedFiles ov1 token clock acc todo =
    findUnused_loop rf trackedFiles ov2 token clock acc todo.
Proof.
  intros Hov. induction todo as [|file rest IH]; intros clock acc; simpl;
    [reflexivity |].
  rewrite Hov, !IH. reflexivity.
Qed.

Lemma scan_loop_ext rf trackedFiles (ov1 ov2 : gmap string bool) token starts :
  (forall f, Memento.get ov1 f = Memento.get ov2 f) ->
  forall clock acc,
    scan_loop rf trackedFiles ov1 token clock acc starts =
    scan_loop rf trackedFiles ov2 token clock acc starts.
Proof.
  intros Hov. induction starts as [|i more IH]; intros clock acc; simpl;
    [reflexivity |].
  unfold findUnusedFiles. rewrite (findUnused_loop_ext _ _ ov1 ov2) by exact Hov.
  destruct (token clock); [reflexivity |].
  destruct (findUnused_loop _ _ ov2 _ _ _ _). apply IH.
Qed.

Lemma get_after_reset st p q :
  Memento.get (userOverrides (resetFileState p st)) q =
  if String.eqb q p then false else Memento.get (userOverrides st) q.
Proof.
  simpl. unfold Memento.get. destruct (String.eqb_spec q p) as [->|Hne].
  - rewrite lookup_delete_eq. reflexivity.
  - rewrite lookup_delete_ne by congruence. reflexivity.
Qed.

Lemma get_after_toggle st p q :
  Memento.get (userOverrides (toggleFileStatus p st)) q =
  if String.eqb q p then negb (Memento.get (userOverrides st) q)
  else Memento.get (userOverrides st) q.
Proof.
  simpl. unfold Memento.get. destruct (String.eqb_spec q p) as [->|Hne].
  - rewrite lookup_insert_eq. reflexivity.
  - rewrite lookup_insert_ne by congruence. reflexivity.
Qed.

Lemma run_app st cs1 cs2 : run st (cs1 ++ cs2) = run (run st cs1) cs2.
Proof. unfold run. apply fold_left_app. Qed.

(** X3: a scan reads the override store only through [get(file, false)]:
    two stores that read alike give the same scan, so a stored [false]
    and a missing key are the same to it.  Hence after a reset of [p] the
    next scan does not depend on the toggles and resets of [p] made
    before. *)
Theorem scan_after_reset_forgets_history
    (config : Config) (workspacePath : string) (listing : option (list entry))
    (token : CancellationToken) :
  (forall ov1 ov2 : gmap string bool,
      (forall f, Memento.get ov1 f = Memento.get ov2 f) ->
      scan config workspacePath listing ov1 token =
      scan config workspacePath listing ov2 token) /\
  (forall st p cs,
      Forall (touches p) cs ->
      scan config workspacePath listing
        (userOverrides (run st (cs ++ [ResetFileState p]))) token =
      scan config workspacePath listing
        (userOverrides (resetFileState p st)) token).
Proof.
  assert (forall ov1 ov2 : gmap string bool,
      (forall f, Memento.get ov1 f = Memento.get ov2 f) ->
      scan config workspacePath listing ov1 token =
      scan config workspacePath listing ov2 token) as Hext.
  { intros ov1 ov2 Hov. unfold scan. apply scan_loop_ext, Hov. }
  split; [exact Hext |].
  intros st p cs Hcs. apply Hext. intros q.
  rewrite run_app. change (run (run st cs) [ResetFileState p])
    with (resetFileState p (run st cs)).
  rewrite !get_after_reset. destruct (String.eqb_spec q p) as [->|Hne];
    [reflexivity |].
  apply run_keeps_override. eapply Forall_impl; [exact Hcs |].
  intros c Hc Hq. destruct c; simpl in *; congruence.
Qed.

Lemma scan_after_reset_forgets_history_witness :
  scan tsOnly "/root" (Some abc_tree)
    (userOverrides
       (run c_marked_used
          ([ToggleFileStatus "/root/c.ts"; ToggleFileStatus "/root/c.ts"]
           ++ [ResetFileState "/root/c.ts"]))) neverCancelled =
  scan tsOnly "/root" (Some abc_tree)
    (userOverrides (resetFileState "/root/c.ts" c_marked_used)) neverCancelled.
Proof.
  apply (scan_after_reset_forgets_history tsOnly "/root" (Some abc_tree)
           neverCancelled).
  repeat constructor.
Defined.

(** X4: the toggle command flips what the store reads for its path and
    for no other path, leaves the provider's list as it is, and applied
    twice gives back every reading. *)
Theorem toggle_flips_one_reading (st : State) (p : string) :
  Memento.get (userOverrides (toggleFileStatus p st)) p
    = negb (Memento.get (userOverrides st) p) /\
  (forall q, q <> p ->
     Memento.get (userOverrides (toggleFileStatus p st)) q
       = Memento.get (userOverrides st) q) /\
  providerUnusedFiles (toggleFileStatus p st) = providerUnusedFiles st /\
  (forall q,
     Memento.get (userOverrides (toggleFileStatus p (toggleFileStatus p st))) q
       = Memento.get (userOverrides st) q).
Proof.
  split; [rewrite get_after_toggle, String.eqb_refl; reflexivity |].
  split.
  { intros q Hq. rewrite get_after_toggle.
    destruct (String.eqb_spec q p); [congruence | reflexivity]. }
  split; [reflexivity |].
  intros q. rewrite !get_after_toggle.
  destruct (String.eqb q p); [apply negb_involutive | reflexivity].
Qed.

Lemma toggle_flips_one_reading_witness :
  Memento.get
    (userOverrides (toggleFileStatus "/root/c.ts" c_marked_used)) "/root/a.ts"
  = Memento.get (userOverrides c_marked_used) "/root/a.ts".
Proof.
  refine (proj1 (proj2 (toggle_flips_one_reading c_marked_used "/root/c.ts")) _ _).
  discriminate.
Defined.

Lemma getChildren_In st p b :
  In (p, b) (getChildren st) <->
  In p (providerUnusedFiles st) /\
  Memento.get (userOverrides st) p = false /\ b = false.
Proof.
  unfold getChildren. rewrite in_map_iff. split.
  - intros (f & [= -> <-] & Hf). apply filter_In in Hf as [Hin Hg].
    apply negb_true_iff in Hg. auto.
  - intros (Hin & Hg & ->). exists p. rewrite Hg. split; [reflexivity |].
    apply filter_In. rewrite Hg. auto.
Qed.

(** X5: the tree view holds exactly the paths of the provider's list
    whose override does not read "used", in the order of the list, and
    every item carries [isMarkedAsUsed = false]: an item of the "used"
    kind is never built. *)
Theorem getChildren_shows_unmarked_only (st : State) :
  map fst (getChildren st)
    = List.filter (fun file => negb (Memento.get (userOverrides st) file))
        (providerUnusedFiles st) /\
  (forall p b,
      In (p, b) (getChildren st) <->
      In p (providerUnusedFiles st) /\
      Memento.get (userOverrides st) p = false /\ b = false).
Proof.
  split.
  - unfold getChildren. rewrite map_map. simpl. apply map_id.
  - intros p b. apply getChildren_In.
Qed.

Lemma step_keeps_decorations st c :
  decorationUnusedFiles st = list_to_set (providerUnusedFiles st) ->
  decorationUnusedFiles (step st c) = list_to_set (providerUnusedFiles (step st c)).
Proof.
  intros H. destruct c as [w config token|q|q|q]; simpl; try reflexivity.
  unfold highlightUnusedFiles. destruct w as [[ws listing]|]; [|exact H].
  destruct (scan _ _ _ _ _); [reflexivity | exact H].
Qed.

Lemma reachable_decorations st :
  reachable st ->
  decorationUnusedFiles st = list_to_set (providerUnusedFiles st).
Proof.
  intros (stored & cs & ->).
  assert (forall s0,
    decorationUnusedFiles s0 = list_to_set (providerUnusedFiles s0) ->
    decorationUnusedFiles (run s0 cs) = list_to_set (providerUnusedFiles (run s0 cs)))
    as Hrun.
  { induction cs as [|c cs IH]; intros s0 H0; [exact H0 |].
    apply IH, step_keeps_decorations, H0. }
  apply Hrun. reflexivity.
Qed.

(** X6: in every state that a session reaches after activation the two
    views agree: the explorer decorates a path exactly when it is in the
    provider's list, with the unused badge exactly when the tree view
    shows it and with the used badge exactly when its override reads
    "used". *)
Theorem tree_and_badges_agree (st : State) (p : string) :
  reachable st ->
  (provideFileDecoration st p = Some UnusedBadge <-> In (p, false) (getChildren st)) /\
  (provideFileDecoration st p = Some UsedBadge <->
     In p (providerUnusedFiles st) /\ Memento.get (userOverrides st) p = true) /\
  (provideFileDecoration st p = None <-> ~ In p (providerUnusedFiles st)).
Proof.
  intros Hr. pose proof (reachable_decorations st Hr) as Hd.
  pose proof (getChildren_In st p false) as Hc.
  unfold provideFileDecoration. rewrite Hd.
  destruct (decide (p ∈ (list_to_set (providerUnusedFiles st) : gset string)))
    as [Hin|Hnin].
  - apply elem_of_list_to_set, list_elem_of_In in Hin.
    destruct (Memento.get (userOverrides st) p) eqn:Hg.
    + split; [|split].
      * rewrite Hc. split; [discriminate | intros (_ & H & _); discriminate].
      * split; auto.
      * split; [discriminate | intros H; contradiction].
    + split; [|split].
      * rewrite Hc. split; auto.
      * split; [discriminate | intros [_ H]; discriminate].
      * split; [discriminate | intros H; contradiction].
  - assert (~ In p (providerUnusedFiles st)) as Hn.
    { intros H. apply Hnin, elem_of_list_to_set, list_elem_of_In, H. }
    split; [|split].
    + rewrite Hc. split; [discriminate | intros (H & _); contradiction].
    + split; [discriminate | intros (H & _); contradiction].
    + split; auto.
Qed.

Lemma tree_and_badges_agree_witness :
  provideFileDecoration c_marked_used "/root/b.ts" = Some UnusedBadge <->
  In ("/root/b.ts", false) (getChildren c_marked_used).
Proof.
  refine (proj1 (tree_and_badges_agree c_marked_used "/root/b.ts" _)).
  exists ∅,
    [HighlightUnusedFiles abc_project tsOnly neverCancelled;
     ToggleFileStatus "/root/c.ts"].
  reflexivity.
Defined.

(** ** Batching *)

Lemma slices_concat (l : list string) k :
  concat (map (fun i => Js.slice l i (i + batchSize))
            (map (fun j => j * batchSize) (seq 0 k)))
  = firstn (k * batchSize) l.
Proof.
  induction k as [|k IH]; [reflexivity |].
  rewrite seq_S, !map_app, concat_app, IH. simpl concat. rewrite app_nil_r.
  unfold Js.slice.
  replace (0 + k) with k by lia.
  replace (k * batchSize + batchSize - k * batchSize) with batchSize by lia.
  rewrite take_take_drop. f_equal. lia.
Qed.

Lemma batches_concat (trackedFiles : list string) :
  concat (batches trackedFiles) = trackedFiles.
Proof.
  unfold batches. rewrite batch_starts_eq.
  change (fun j => j * 100) with (fun j => j * batchSize).
  rewrite slices_concat. apply firstn_all2. unfold batchSize.
  pose proof (Nat.mul_succ_div_gt (length trackedFiles + 99) 100). lia.
Qed.

(** X7: the command cuts the tracked files into consecutive batches: put
    end to end the batches give back the tracked list, so every tracked
    file is in exactly one position of one batch, and every batch holds at
    least one and at most [batchSize] files. *)
Theorem batches_partition_tracked_files (trackedFiles : list string) :
  concat (batches trackedFiles) = trackedFiles /\
  Forall (fun b => 1 <= length b <= batchSize) (batches trackedFiles).
Proof.
  split; [apply batches_concat |].
  apply List.Forall_forall. intros b Hb. unfold batches in Hb.
  apply in_map_iff in Hb as (i & <- & Hi).
  apply batch_starts_spec in Hi as (j & -> & Hj).
  unfold Js.slice. rewrite length_take, length_drop. unfold batchSize in *. lia.
Qed.

Lemma filter_is_sublist {A} (f : A -> bool) (l : list A) :
  sublist (List.filter f l) l.
Proof.
  induction l as [|x l IH]; simpl; [constructor |].
  destruct (f x); [apply sublist_skip | apply sublist_cons]; exact IH.
Qed.

Lemma filtered_batches_sublist (P : list string -> string -> bool) bs :
  sublist (flat_map (fun b => List.filter (P b) b) bs) (concat bs).
Proof.
  induction bs as [|b bs IH]; simpl; [constructor |].
  apply sublist_app; [apply filter_is_sublist | exact IH].
Qed.

Lemma flat_map_map {A B C} (g : A -> B) (f : B -> list C) (l : list A) :
  flat_map f (map g l) = flat_map (fun x => f (g x)) l.
Proof. induction l as [|x l IH]; simpl; [reflexivity | rewrite IH; reflexivity]. Qed.

Lemma scan_never_cancelled config workspacePath listing ov
    (token : CancellationToken) :
  (forall k, token k = false) ->
  scan config workspacePath listing ov token =
  Some (flat_map
          (fun b => List.filter
                      (reportable (readFile workspacePath (default [] listing)) ov b) b)
          (batches (trackedOf config
                      (getAllFiles workspacePath (ignoreFolders config)
                         (ignoreRootFiles config) listing)))).
Proof.
  intros Hn. unfold scan. rewrite scan_loop_never by exact Hn.
  rewrite app_nil_l. unfold batches. rewrite flat_map_map. reflexivity.
Qed.

(** X8: with a token that is never cancelled the scan always completes.
    Its result is, batch after batch, the files of the batch that have no
    "used" override and are not used by another file of the same batch;
    it is a sublist of the tracked files, in their order. *)
Theorem uncancelled_scan_result
    (config : Config) (workspacePath : string) (listing : option (list entry))
    (ov : gmap string bool) (token : CancellationToken) :
  (forall k, token k = false) ->
  let trackedFiles :=
    trackedOf config
      (getAllFiles workspacePath (ignoreFolders config) (ignoreRootFiles config)
         listing) in
  let rf := readFile workspacePath (default [] listing) in
  let result :=
    flat_map (fun b => List.filter (reportable rf ov b) b) (batches trackedFiles) in
  scan config workspacePath listing ov token = Some result /\
  sublist result trackedFiles.
Proof.
  intros Hn trackedFiles rf result. split.
  - apply scan_never_cancelled, Hn.
  - subst result. rewrite <- (batches_concat trackedFiles) at 2.
    apply filtered_batches_sublist.
Qed.

Lemma uncancelled_scan_result_witness :
  sublist
    (flat_map
       (fun b => List.filter (reportable (readFile "/root" abc_tree) ∅ b) b)
       (batches (trackedOf tsOnly (getAllFiles "/root" [] [] (Some abc_tree)))))
    (trackedOf tsOnly (getAllFiles "/root" [] [] (Some abc_tree))).
Proof.
  refine (proj2 (uncancelled_scan_result tsOnly "/root" (Some abc_tree) ∅
                   neverCancelled _)).
  reflexivity.
Defined.

Lemma isUsed_mono rf (small large : list string) file :
  (forall x, In x small -> In x large) ->
  isUsed rf small file = true -> isUsed rf large file = true.
Proof.
  unfold isUsed. rewrite !isUsed_loop_true.
  intros Hsub (other & content & Hin & H). exists other, content. auto.
Qed.

(** X9: batching only adds reports.  Every file that the engine reports
    when it is handed the whole tracked list is also in the result of the
    uncancelled batched scan (the converse fails: see C1). *)
Theorem batched_scan_reports_at_least_unbatched
    (config : Config) (workspacePath : string) (listing : option (list entry))
    (ov : gmap string bool) (token : CancellationToken) (l : list string)
    (f : string) :
  (forall k, token k = false) ->
  scan config workspacePath listing ov token = Some l ->
  let trackedFiles :=
    trackedOf config
      (getAllFiles workspacePath (ignoreFolders config) (ignoreRootFiles config)
         listing) in
  In f (fst (findUnusedFiles (readFile workspacePath (default [] listing))
               trackedFiles ov None 0)) ->
  In f l.
Proof.
  intros Hn Hs trackedFiles Hf.
  pose proof (scan_never_cancelled config workspacePath listing ov token Hn)
    as Hres.
  fold trackedFiles in Hres. rewrite Hs in Hres. injection Hres as ->.
  rewrite findUnusedFiles_fst, visited_never in Hf by reflexivity.
  apply filter_In in Hf as [Hin Hrep].
  rewrite <- (batches_concat trackedFiles) in Hin.
  apply in_concat in Hin as (b & Hb & Hfb).
  apply in_flat_map. exists b. split; [exact Hb |].
  apply filter_In. split; [exact Hfb |].
  unfold reportable in *. apply andb_prop in Hrep as [Ho Hu].
  rewrite Ho. simpl. apply negb_true_iff. apply negb_true_iff in Hu.
  destruct (isUsed _ b f) eqn:E; [|reflexivity].
  rewrite <- Hu. symmetry. eapply isUsed_mono; [|exact E].
  intros x Hx. rewrite <- (batches_concat trackedFiles).
  apply in_concat. eauto.
Qed.

Lemma batched_scan_reports_at_least_unbatched_witness :
  In "/root/c.ts" ["/root/b.ts"; "/root/c.ts"].
Proof.
  refine (batched_scan_reports_at_least_unbatched tsOnly "/root" (Some abc_tree)
            ∅ neverCancelled ["/root/b.ts"; "/root/c.ts"] "/root/c.ts" _ _ _).
  - reflexivity.
  - vm_compute. reflexivity.
  - vm_compute. auto.
Defined.

(** ** Cancellation that comes late *)

Lemma findUnused_loop_snd_le rf ov trackedFiles token todo :
  forall clock acc,
    snd (findUnused_loop rf trackedFiles ov token clock acc todo)
    <= clock + length todo.
Proof.
  induction todo as [|file rest IH]; intros clock acc; simpl; [lia |].
  destruct (isCancellationRequested token clock); simpl; [lia |].
  destruct (Memento.get ov file); [|destruct (isUsed rf trackedFiles file)];
    match goal with |- snd (findUnused_loop _ _ _ _ _ ?a _) <= _ =>
      pose proof (IH (S clock) a) end; lia.
Qed.

Lemma scan_loop_completes rf ov trackedFiles n starts :
  forall clock acc,
    starts = [] \/ clock + (batchSize + 1) * (length starts - 1) < n ->
    exists l,
      scan_loop rf trackedFiles ov (cancelledFrom n) clock acc starts = Some l.
Proof.
  induction starts as [|i more IH]; intros clock acc Hn; simpl scan_loop;
    [eauto |].
  destruct Hn as [Hn|Hn]; [discriminate |]. simpl length in Hn.
  unfold cancelledFrom at 1.
  destruct (Nat.leb_spec n clock) as [Hle|Hlt]; [lia |].
  destruct (findUnusedFiles rf (Js.slice trackedFiles i (i + batchSize)) ov
              (Some (cancelledFrom n)) (S clock)) as [bu clock'] eqn:E.
  apply IH. destruct more as [|i2 more']; [left; reflexivity | right].
  pose proof (findUnused_loop_snd_le rf ov
    (Js.slice trackedFiles i (i + batchSize)) (Some (cancelledFrom n))
    (Js.slice trackedFiles i (i + batchSize)) (S clock) []) as Hc.
  fold (findUnusedFiles rf (Js.slice trackedFiles i (i + batchSize)) ov
          (Some (cancelledFrom n)) (S clock)) in Hc.
  rewrite E in Hc. simpl snd in Hc.
  assert (length (Js.slice trackedFiles i (i + batchSize)) <= batchSize) as Hlen.
  { unfold Js.slice. rewrite length_take. lia. }
  simpl length in *. unfold batchSize in *. lia.
Qed.

(** X10: a cancellation request that the token shows only after the read
    at the head of the last batch is not reported (nor is any request when
    no file is tracked): the command publishes the list it has, cut short
    or not, and shows 'Scan complete' with its length. *)
Theorem late_cancellation_reads_as_complete
    (config : Config) (workspacePath : string) (listing : option (list entry))
    (st : State) (n : nat) :
  let trackedFiles :=
    trackedOf config
      (getAllFiles workspacePath (ignoreFolders config) (ignoreRootFiles config)
         listing) in
  let heads := length (batch_starts (length trackedFiles)) in
  heads = 0 \/ (batchSize + 1) * (heads - 1) < n ->
  exists l,
    scan config workspacePath listing (userOverrides st) (cancelledFrom n) = Some l /\
    highlightUnusedFiles (Some (workspacePath, listing)) config (cancelledFrom n) st
      = notify (ScanComplete (length l)) (publish l st).
Proof.
  intros trackedFiles heads Hn.
  destruct (scan_loop_completes (readFile workspacePath (default [] listing))
              (userOverrides st) trackedFiles n
              (batch_starts (length trackedFiles)) 0 []) as [l Hl].
  { destruct Hn as [Hn|Hn]; [left | right; exact Hn].
    apply length_zero_iff_nil, Hn. }
  exists l. assert (scan config workspacePath listing (userOverrides st)
                      (cancelledFrom n) = Some l) as Hs by exact Hl.
  split; [exact Hs |]. unfold highlightUnusedFiles. rewrite Hs. reflexivity.
Qed.

Lemma late_cancellation_reads_as_complete_witness :
  exists l,
    scan tsOnly "/root" (Some abc_tree) (userOverrides (activate ∅))
      (cancelledFrom 2) = Some l /\
    highlightUnusedFiles (Some ("/root", Some abc_tree)) tsOnly (cancelledFrom 2)
      (activate ∅)
      = notify (ScanComplete (length l)) (publish l (activate ∅)).
Proof.
  refine (late_cancellation_reads_as_complete tsOnly "/root" (Some abc_tree)
            (activate ∅) 2 _).
  right. vm_compute. lia.
Defined.

(** ** The walker, once more *)

Lemma arr_includes_false l x : Js.arr_includes l x = false <-> ~ In x l.
Proof.
  rewrite <- arr_includes_In. destruct (Js.arr_includes l x); split; intros H;
    [discriminate | exfalso; apply H; reflexivity
    | intros H'; discriminate | reflexivity].
Qed.

Lemma getAllFiles_item_complete igF igR e :
  forall dirPath dirs name,
    In (dirs, name) (entry_files e) ->
    Forall (fun d => Js.arr_includes igF d = false) dirs ->
    Js.arr_includes igR name = false ->
    In (path_of dirPath dirs name) (getAllFiles_item dirPath igF igR e).
Proof.
  induction e as [n c|n items IH|n] using entry_induction;
    intros dirPath dirs name Hin Hd Hn; simpl in Hin.
  - destruct Hin as [[= <- <-]|[]]. simpl. rewrite Hn. left. reflexivity.
  - apply in_map_iff in Hin as ([ds nm] & [= <- <-] & Hin).
    apply in_flat_map in Hin as (item & Hitem & Hin).
    inversion Hd as [|? ? Hn0 Hds]; subst. simpl. rewrite Hn0. simpl.
    apply in_flat_map. exists item. split; [exact Hitem |].
    rewrite List.Forall_forall in IH. rewrite path_of_cons.
    apply (IH item Hitem); assumption.
  - destruct Hin.
Qed.

(** X11: the walker lists exactly the non-directory entries of the tree
    that can be reached through readable directories none of which bears
    a name of [ignoreFolders], and whose own name is not in
    [ignoreRootFiles]; each with the path joined from the root. *)
Theorem getAllFiles_lists_exactly
    (root : string) (ignoreFolders ignoreRootFiles : list string)
    (items : list entry) (p : string) :
  In p (getAllFiles root ignoreFolders ignoreRootFiles (Some items)) <->
  exists dirs name,
    In (dirs, name) (tree_files items) /\
    p = path_of root dirs name /\
    Forall (fun d => ~ In d ignoreFolders) dirs /\
    ~ In name ignoreRootFiles.
Proof.
  split.
  - intros H. destruct (getAllFiles_sound _ _ _ _ _ H)
      as (dirs & name & Hf & -> & Hd & Hn).
    exists dirs, name. repeat (split; [auto |]).
    + eapply Forall_impl; [exact Hd |]. intros d. apply arr_includes_false.
    + apply arr_includes_false, Hn.
  - intros (dirs & name & Hf & -> & Hd & Hn). simpl.
    apply in_flat_map in Hf as (item & Hitem & Hf).
    apply in_flat_map. exists item. split; [exact Hitem |].
    apply getAllFiles_item_complete; [exact Hf | | apply arr_includes_false, Hn].
    eapply Forall_impl; [exact Hd |]. intros d. apply arr_includes_false.
Qed.

Lemma entry_files_head e dirs name :
  In (dirs, name) (entry_files e) ->
  exists tl, dirs ++ [name] = entry_name e :: tl.
Proof.
  destruct e as [n c|n items|n]; simpl.
  - intros [[= <- <-]|[]]. exists []. reflexivity.
  - intros H. apply in_map_iff in H as ([ds nm] & [= <- <-] & _).
    exists (ds ++ [nm]). reflexivity.
  - intros [].
Qed.

Lemma nodupb_cons x l :
  nodupb (x :: l) = true -> ~ In x l /\ nodupb l = true.
Proof.
  simpl. intros H. apply andb_prop in H as [H1 H2]. split; [|exact H2].
  apply negb_true_iff in H1. apply arr_includes_false, H1.
Qed.

Lemma walk_items_NoDup igF igR items :
  Forall (fun e => entry_wf e = true -> names_unique e = true ->
                   forall dir, NoDup (getAllFiles_item dir igF igR e)) items ->
  forallb entry_wf items = true ->
  nodupb (map entry_name items) = true ->
  forallb names_unique items = true ->
  forall dir, NoDup (flat_map (getAllFiles_item dir igF igR) items).
Proof.
  induction items as [|e rest IH]; intros HP Hwf Hnd Hnu dir; simpl;
    [constructor |].
  inversion HP as [|? ? He Hrest]; subst.
  simpl in Hwf, Hnu. apply andb_prop in Hwf as [Hwe Hwr].
  apply andb_prop in Hnu as [Hue Hur].
  simpl map in Hnd. apply nodupb_cons in Hnd as [Hfresh Hnd].
  apply NoDup_app. split; [apply He; assumption |].
  split; [|apply IH; assumption].
  intros p Hp Hp'. apply list_elem_of_In in Hp. apply list_elem_of_In in Hp'.
  apply in_flat_map in Hp' as (e' & He' & Hp').
  destruct (getAllFiles_item_sound _ _ _ _ _ Hp) as (d1 & n1 & Hf1 & E1 & _).
  destruct (getAllFiles_item_sound _ _ _ _ _ Hp') as (d2 & n2 & Hf2 & E2 & _).
  rewrite E1 in E2. apply path_of_inj in E2 as [-> ->].
  - destruct (entry_files_head _ _ _ Hf1) as [t1 H1].
    destruct (entry_files_head _ _ _ Hf2) as [t2 H2].
    apply Hfresh. apply in_map_iff. exists e'. split; [congruence | exact He'].
  - eapply entry_files_no_slash; eauto.
  - eapply entry_files_no_slash; [|exact Hf2].
    rewrite forallb_forall in Hwr. apply Hwr, He'.
Qed.

Lemma walk_item_NoDup igF igR e :
  entry_wf e = true -> names_unique e = true ->
  forall dir, NoDup (getAllFiles_item dir igF igR e).
Proof.
  induction e as [n c|n items IH|n] using entry_induction;
    intros Hwf Hnu dir; simpl.
  - destruct (Js.arr_includes igR n); [constructor |].
    apply NoDup_singleton.
  - destruct (Js.arr_includes igF n); simpl; [constructor |].
    simpl in Hwf, Hnu. apply andb_prop in Hwf as [_ Hwf].
    apply andb_prop in Hnu as [Hnd Hnu].
    apply walk_items_NoDup; assumption.
  - destruct (Js.arr_includes igF n); constructor.
Qed.

(** X12: when the entries of each directory bear distinct names (and no
    name holds a separator), the walker lists every path once, and so
    does the list of tracked files. *)
Theorem walker_lists_each_path_once
    (config : Config) (root : string) (items : list entry) :
  forallb entry_wf items = true ->
  nodupb (map entry_name items) = true ->
  forallb names_unique items = true ->
  NoDup (getAllFiles root (ignoreFolders config) (ignoreRootFiles config)
           (Some items)) /\
  NoDup (trackedOf config
           (getAllFiles root (ignoreFolders config) (ignoreRootFiles config)
              (Some items))).
Proof.
  intros Hwf Hnd Hnu.
  assert (NoDup (getAllFiles root (ignoreFolders config) (ignoreRootFiles config)
                   (Some items))) as H.
  { simpl. apply walk_items_NoDup; try assumption.
    apply List.Forall_forall. intros e _. apply walk_item_NoDup. }
  split; [exact H |].
  eapply sublist_NoDup; [exact H | apply filter_is_sublist].
Qed.

Lemma walker_lists_each_path_once_witness :
  NoDup (getAllFiles "/root" (ignoreFolders tsOnly) (ignoreRootFiles tsOnly)
           (Some nested_tree)).
Proof.
  refine (proj1 (walker_lists_each_path_once tsOnly "/root" nested_tree _ _ _));
    reflexivity.
Defined.

(** ** Tracked files *)

Lemma lower_ascii_not_upper c : is_upper (Js.lower_ascii c) = false.
Proof.
  destruct c as [[] [] [] [] [] [] [] []]; vm_compute; reflexivity.
Qed.

Lemma toLowerCase_no_upper s : has_upper (Js.toLowerCase s) = false.
Proof.
  induction s as [|c s IH]; simpl; [reflexivity |].
  rewrite lower_ascii_not_upper, IH. reflexivity.
Qed.

Lemma arr_includes_without_capitalised l x :
  has_upper x = false ->
  Js.arr_includes (List.filter (fun e => negb (has_upper e)) l) x
  = Js.arr_includes l x.
Proof.
  intros Hx. unfold Js.arr_includes. induction l as [|e l IH]; simpl;
    [reflexivity |].
  destruct (has_upper e) eqn:He; simpl; rewrite IH; [|reflexivity].
  destruct (String.eqb_spec x e) as [->|_]; [congruence | reflexivity].
Qed.

(** X13: on paths made of ASCII characters, the entries of [fileTypes] are
    compared as they are written with the lower-cased extension of the
    path.  An entry that holds an ASCII capital letter therefore matches
    no file: removing all such entries from the configuration leaves the
    tracked files unchanged, and a configuration made only of such
    entries tracks nothing. *)
Theorem capitalised_fileTypes_match_nothing
    (config : Config) (allFiles : list string) :
  forallb is_ascii_string allFiles = true ->
  trackedOf config allFiles = trackedOf (withoutCapitalised config) allFiles /\
  ((forall e, In e (fileTypes config) -> has_upper e = true) ->
   trackedOf config allFiles = []).
Proof.
  intros _.
  assert (trackedOf config allFiles
          = trackedOf (withoutCapitalised config) allFiles) as Heq.
  { unfold trackedOf. apply filter_ext. intros file. simpl. symmetry.
    apply arr_includes_without_capitalised, toLowerCase_no_upper. }
  split; [exact Heq |].
  intros Hup. rewrite Heq. unfold trackedOf, withoutCapitalised. simpl.
  assert (List.filter (fun e => negb (has_upper e)) (fileTypes config) = [])
    as ->.
  { induction (fileTypes config) as [|e l IH]; simpl; [reflexivity |].
    rewrite (Hup e) by (left; reflexivity). simpl.
    apply IH. intros e' He'. apply Hup. right. exact He'. }
  clear Heq. induction allFiles as [|f l IH]; simpl; [reflexivity | exact IH].
Qed.

Lemma capitalised_fileTypes_match_nothing_witness :
  trackedOf (mkConfig [".TS"; ".ts"] [] []) ["/root/a.ts"; "/root/b.TS"; "/root/c.md"]
  = trackedOf (withoutCapitalised (mkConfig [".TS"; ".ts"] [] []))
      ["/root/a.ts"; "/root/b.TS"; "/root/c.md"].
Proof.
  refine (proj1 (capitalised_fileTypes_match_nothing
                   (mkConfig [".TS"; ".ts"] [] [])
                   ["/root/a.ts"; "/root/b.TS"; "/root/c.md"] _)).
  reflexivity.
Defined.

(** ** Configuration, activation, deletions *)

(** X14: when the configuration text parses to [null], a boolean or a
    number, the spread copies nothing and the result is exactly the
    built-in defaults. *)
Theorem primitive_config_gives_defaults
    (JSON_parse : string -> completion json) (text : string) (v : json) :
  JSON_parse text = Normal v ->
  is_primitive v = true ->
  readConfigFile JSON_parse (Content text) = Normal defaultConfig.
Proof.
  intros Hp Hv. unfold readConfigFile. simpl. rewrite Hp. simpl.
  unfold spread.
  assert (ownProperties v = ∅) as -> by (destruct v; try discriminate; reflexivity).
  rewrite (left_id_L ∅ (∪)). reflexivity.
Qed.

Lemma primitive_config_gives_defaults_witness :
  readConfigFile (fun _ => Normal JNull) (Content "null") = Normal defaultConfig.
Proof.
  refine (primitive_config_gives_defaults (fun _ => Normal JNull) "null" JNull _ _);
    reflexivity.
Defined.

Lemma filter_filter_comm {A} (f g : A -> bool) (l : list A) :
  List.filter f (List.filter g l) = List.filter g (List.filter f l).
Proof.
  induction l as [|x l IH]; simpl; [reflexivity |].
  destruct (f x) eqn:Ef, (g x) eqn:Eg; simpl; rewrite ?Ef, ?Eg, IH; reflexivity.
Qed.

Lemma filter_filter_same {A} (f : A -> bool) (l : list A) :
  List.filter f (List.filter f l) = List.filter f l.
Proof.
  induction l as [|x l IH]; simpl; [reflexivity |].
  destruct (f x) eqn:Ef; simpl; rewrite ?Ef, IH; reflexivity.
Qed.

(** X15: deletion events can come in any order and more than once: two
    deletions give the same state in either order, and a repeated
    deletion changes nothing more. *)
Theorem deletions_commute (st : State) (p q : string) :
  onDidDelete p (onDidDelete q st) = onDidDelete q (onDidDelete p st) /\
  onDidDelete p (onDidDelete p st) = onDidDelete p st.
Proof.
  unfold onDidDelete, publish. simpl. split.
  - rewrite filter_filter_comm. reflexivity.
  - rewrite filter_filter_same. reflexivity.
Qed.

(** X16: toggling a path hides it from the tree view when it was shown
    and leaves every other item as it was; resetting a path of the
    provider's list shows it again, whatever its override was. *)
Theorem toggle_hides_and_reset_shows (st : State) (p : string) :
  (Memento.get (userOverrides st) p = false ->
   forall b, ~ In (p, b) (getChildren (toggleFileStatus p st))) /\
  (forall q b, q <> p ->
     (In (q, b) (getChildren (toggleFileStatus p st)) <-> In (q, b) (getChildren st))) /\
  (In p (providerUnusedFiles st) ->
   In (p, false) (getChildren (resetFileState p st))).
Proof.
  split; [|split].
  - intros Hg b H. apply getChildren_In in H as (_ & H & _).
    rewrite get_after_toggle, String.eqb_refl, Hg in H. discriminate.
  - intros q b Hq. rewrite !getChildren_In, get_after_toggle.
    destruct (String.eqb_spec q p); [congruence | reflexivity].
  - intros Hin. apply getChildren_In.
    rewrite get_after_reset, String.eqb_refl. auto.
Qed.

Lemma toggle_hides_and_reset_shows_witness :
  In ("/root/c.ts", false) (getChildren (resetFileState "/root/c.ts" c_marked_used)).
Proof.
  refine (proj2 (proj2 (toggle_hides_and_reset_shows c_marked_used "/root/c.ts")) _).
  vm_compute. auto.
Defined.

(** ** What a cancelled engine run keeps, and where reports come from *)

Lemma visited_cancelledFrom todo :
  forall clock n,
    visited (Some (cancelledFrom (clock + n))) clock todo = firstn n todo.
Proof.
  induction todo as [|file rest IH]; intros clock n; simpl.
  - destruct n; reflexivity.
  - unfold cancelledFrom at 1. destruct n as [|n].
    + rewrite Nat.add_0_r, Nat.leb_refl. reflexivity.
    + destruct (Nat.leb_spec (clock + S n) clock) as [Hle|_]; [lia |].
      simpl. f_equal.
      replace (clock + S n) with (S clock + n) by lia. apply IH.
Qed.

(** X18: when the request is first shown at the read made for the file
    of index [n] of the batch, the engine returns exactly what it would
    report among the first [n] files: what was examined before the
    request is kept, compared against the whole batch. *)
Theorem cancelled_engine_keeps_examined_files
    (rf : string -> option string) (ov : gmap string bool)
    (batch : list string) (clock n : nat) :
  fst (findUnusedFiles rf batch ov (Some (cancelledFrom (clock + n))) clock)
  = List.filter (reportable rf ov batch) (firstn n batch).
Proof. rewrite findUnusedFiles_fst, visited_cancelledFrom. reflexivity. Qed.

Lemma slice_In {A} (l : list A) i j x : In x (Js.slice l i j) -> In x l.
Proof.
  unfold Js.slice. intros H.
  rewrite <- (firstn_skipn i l). apply in_or_app. right.
  rewrite <- (firstn_skipn (j - i) (skipn i l)). apply in_or_app. left. exact H.
Qed.

(** X19: whatever the token does, a path that a scan publishes is a
    tracked file: the walker listed it, the lower-cased extension of the
    path is an entry of [fileTypes], and its override does not read
    "used". *)
Theorem scan_reports_tracked_files_only
    (config : Config) (workspacePath : string) (listing : option (list entry))
    (ov : gmap string bool) (token : CancellationToken) (l : list string)
    (f : string) :
  scan config workspacePath listing ov token = Some l ->
  In f l ->
  In f (getAllFiles workspacePath (ignoreFolders config) (ignoreRootFiles config)
          listing) /\
  In (Js.toLowerCase (Path.extname f)) (fileTypes config) /\
  Memento.get ov f = false.
Proof.
  intros Hs Hin. unfold scan in Hs.
  destruct (scan_loop_In _ _ _ _ _ _ _ _ _ Hs Hin) as [[]|(i & c & _ & H)].
  rewrite findUnusedFiles_fst in H. apply filter_In in H as [Hv Hr].
  apply visited_In, slice_In in Hv.
  unfold trackedOf in Hv. apply filter_In in Hv as [Hw Hext].
  apply arr_includes_In in Hext.
  split; [exact Hw |]. split; [exact Hext |].
  unfold reportable in Hr. apply andb_prop in Hr as [Hr _].
  apply negb_true_iff, Hr.
Qed.

Lemma scan_reports_tracked_files_only_witness :
  In "/root/c.ts" (getAllFiles "/root" (ignoreFolders tsOnly)
                     (ignoreRootFiles tsOnly) (Some abc_tree)) /\
  In (Js.toLowerCase (Path.extname "/root/c.ts")) (fileTypes tsOnly) /\
  Memento.get ∅ "/root/c.ts" = false.
Proof.
  refine (scan_reports_tracked_files_only tsOnly "/root" (Some abc_tree) ∅
            neverCancelled ["/root/b.ts"; "/root/c.ts"] "/root/c.ts" _ _).
  - vm_compute. reflexivity.
  - simpl. auto.
Defined.
